(** * Raysect render workflow and VTK import: a shallow embedding

    The development follows [raysect/core/workflow.py] (the render engines)
    and the mode dispatch of [raysect/primitive/mesh/vtk.py].

    - [Py]: the fragment of Python values, exceptions and builtins the two
      modules rely on;
    - [RenderEngine], [SerialEngine], [MulticoreEngine]: the three classes of
      [workflow.py]; the multi-process [run] is an interleaving semantics
      over the producer process, the worker processes and the caller;
    - [VTKHandler]: [my_import_vtk].

    Definitions come first, the theorems about them afterwards. *)

From Stdlib Require Import ZArith Ascii String Permutation Lia DecimalString DecimalNat.
From stdpp Require Import base numbers list strings gmap.

Local Open Scope Z_scope.

(* ===================================================================== *)
(** ** Python values, exceptions and builtins                            *)
(* ===================================================================== *)

Module Py.

(** An IEEE double is either a finite dyadic rational [m * 2^e], an
    infinity or a NaN. *)
Inductive float64 : Type :=
| FFinite (m e : Z)
| FInf (negative : bool)
| FNaN.

(** The values exchanged with the engines: tasks, results and the
    argument of the [processes] setter. *)
#[warnings="-register-all"]
Inductive pyobj : Type :=
| PyNone
| PyBool (b : bool)
| PyInt (z : Z)
| PyFloat (f : float64)
| PyTuple (items : list pyobj).

Inductive exn : Type :=
| ValueError (msg : string)
| TypeError (msg : string)
| OverflowError (msg : string)
| NotImplementedError (msg : string)
| AssertionError (msg : string)
| RuntimeError (msg : string)
| OSError (msg : string).

(** Outcome of a call that may raise. *)
Inductive result (A : Type) : Type :=
| Ok (a : A)
| Raise (e : exn).
Global Arguments Ok {A} a.
Global Arguments Raise {A} e.

(** [x is None] *)
Definition is_None (v : pyobj) : bool :=
  match v with PyNone => true | _ => false end.

(** Truncation toward zero of the double [m * 2^e]. *)
Definition float_trunc (m e : Z) : Z :=
  if 0 <=? e then m * 2 ^ e else Z.quot m (2 ^ (- e)).

(** The builtin [int(v)]. *)
Definition int (v : pyobj) : result Z :=
  match v with
  | PyInt z => Ok z
  | PyBool b => Ok (if b then 1 else 0)
  | PyFloat (FFinite m e) => Ok (float_trunc m e)
  | PyFloat (FInf _) =>
      Raise (OverflowError "cannot convert float infinity to integer")
  | PyFloat FNaN =>
      Raise (ValueError "cannot convert float NaN to integer")
  | PyNone =>
      Raise (TypeError "int() argument must be a string, a bytes-like object or a real number, not 'NoneType'")
  | PyTuple _ =>
      Raise (TypeError "int() argument must be a string, a bytes-like object or a real number, not 'tuple'")
  end.

(** [str.lower()] on the ASCII alphabet: [A]..[Z] are mapped to
    [a]..[z], every other character is kept. *)
Definition lower_char (c : ascii) : ascii :=
  let n := nat_of_ascii c in
  if ((65 <=? n) && (n <=? 90))%nat then ascii_of_nat (n + 32) else c.

Fixpoint lower (s : string) : string :=
  match s with
  | EmptyString => EmptyString
  | String c rest => String (lower_char c) (lower rest)
  end.

(** [repr] of a [str] without quote characters inside, and of a tuple of
    such strings, as [str.format] prints them for a [{}] field. *)
Definition repr_str (s : string) : string := ("'" ++ s ++ "'")%string.

Fixpoint join (sep : string) (l : list string) : string :=
  match l with
  | [] => EmptyString
  | [x] => x
  | x :: rest => (x ++ sep ++ join sep rest)%string
  end.

Definition repr_tuple (l : list string) : string :=
  match l with
  | [x] => ("(" ++ repr_str x ++ ",)")%string
  | _ => ("(" ++ join ", " (map repr_str l) ++ ")")%string
  end.

(** [word in text] on strings. *)
Definition contains (word text : string) : bool :=
  match String.index 0 word text with Some _ => true | None => false end.

(** The doubles nearest to [2.9] and to [0.5]. *)
Definition float_2_9 : float64 := FFinite 6530219459687219 (-51).
Definition float_0_5 : float64 := FFinite 1 (-1).

(** Positional and keyword argument bundles ([*args], [**kwargs]). *)
Definition args : Type := list pyobj.
Definition kwargs : Type := list (string * pyobj).

End Py.

Import Py.

(* ===================================================================== *)
(** ** The render workflow: [raysect/core/workflow.py]                   *)
(* ===================================================================== *)

(** What the engines do that a caller can observe: a call of [render] on a
    task, a result put onto the result queue, a call of [update] on a
    result. *)
Inductive event : Type :=
| EvRender (task : pyobj)
| EvResult (result : pyobj)
| EvUpdate (result : pyobj).

Definition update_of (e : event) : option pyobj :=
  match e with EvUpdate r => Some r | _ => None end.

Definition result_of (e : event) : option pyobj :=
  match e with EvResult r => Some r | _ => None end.

Definition render_of (e : event) : option pyobj :=
  match e with EvRender t => Some t | _ => None end.

(** The arguments of the successive [update] calls, the results received by
    the result queue and the tasks given to [render], oldest first. *)
Definition updates (tr : list event) : list pyobj := omap update_of tr.
Definition received (tr : list event) : list pyobj := omap result_of tr.
Definition rendered (tr : list event) : list pyobj := omap render_of tr.

(** The two callbacks of [run].  [render] is a function of the task and its
    argument bundle; [update] folds a result into the state [S] owned by
    the caller. *)
Definition render_fn : Type := pyobj -> args -> kwargs -> pyobj.
Definition update_fn (S : Type) : Type := pyobj -> args -> kwargs -> S -> S.

(** Two callbacks used in examples: [render(t) = t * t] on integer tasks,
    and an [update] that appends its result to a list owned by the caller. *)
Definition square : render_fn :=
  fun task _ _ => match task with PyInt t => PyInt (t * t) | _ => PyNone end.

Definition append : update_fn (list pyobj) :=
  fun result _ _ shared => shared ++ [result].

(** *** class RenderEngine *)

Module RenderEngine.

Definition virtual_msg : string :=
  "Virtual method must be implemented in sub-class.".

(** [run]: raises whatever it is given; the caller's state is untouched and
    nothing is rendered or updated. *)
Definition run {S : Type} (tasks : list pyobj)
    (render : render_fn) (update : update_fn S)
    (render_args : args) (render_kwargs : kwargs)
    (update_args : args) (update_kwargs : kwargs)
    (caller : S) : S * list event * result unit :=
  (caller, [], Raise (NotImplementedError virtual_msg)).

Definition worker_count : result Z :=
  Raise (NotImplementedError virtual_msg).

End RenderEngine.

(** *** class SerialEngine *)

Module SerialEngine.

Section Run.
Context {S : Type}.
Variables (render : render_fn) (update : update_fn S).
Variables (render_args : args) (render_kwargs : kwargs).
Variables (update_args : args) (update_kwargs : kwargs).

(** The events of one iteration: the task is rendered, then its result is
    handed to [update]. *)
Definition iteration (task : pyobj) : list event :=
  [EvRender task; EvUpdate (render task render_args render_kwargs)].

(** The body of [for task in tasks], threading the caller's state and the
    events so far. *)
Fixpoint run_loop (tasks : list pyobj) (caller : S) (tr : list event)
    : S * list event :=
  match tasks with
  | [] => (caller, tr)
  | task :: rest =>
      let result := render task render_args render_kwargs in
      let caller' := update result update_args update_kwargs caller in
      run_loop rest caller' (tr ++ [EvRender task; EvUpdate result])
  end.

Definition run (tasks : list pyobj) (caller : S) : S * list event :=
  run_loop tasks caller [].

End Run.

Definition worker_count : Z := 1.

End SerialEngine.

(** *** class MulticoreEngine *)

Module MulticoreEngine.

Record engine : Type := { _processes : Z }.

Definition zero_msg : string :=
  "Number of concurrent worker processes must be greater than zero.".

(** The [processes] property: getter. *)
Definition processes (self : engine) : Z := _processes self.

(** The [processes] property: setter.  [cpu_count] is what
    [multiprocessing.cpu_count()] answers on the host when the assignment
    runs.  The engine after the call is returned next to the outcome, so
    that an assignment that raises shows what it left behind. *)
Definition set_processes (cpu_count : Z) (value : pyobj) (self : engine)
    : engine * result unit :=
  if is_None value then
    ({| _processes := cpu_count |}, Ok tt)
  else
    match int value with
    | Raise e => (self, Raise e)
    | Ok value =>
        if value <=? 0 then (self, Raise (ValueError zero_msg))
        else ({| _processes := value |}, Ok tt)
    end.

(** [__init__(self, processes=None)] *)
Definition init (cpu_count : Z) (processes : pyobj) : result engine :=
  let self := {| _processes := -1 |} in
  match set_processes cpu_count processes self with
  | (self, Ok _) => Ok self
  | (_, Raise e) => Raise e
  end.

Definition worker_count (self : engine) : Z := _processes self.

(** The value [run] puts on the task queue to stop a worker. *)
Definition ShutdownSignal : pyobj := PyNone.

(** A task is any value that is not the shutdown signal. *)
Definition is_task (v : pyobj) : Prop := v <> ShutdownSignal.

(** **** [run], [_producer] and [_worker] as communicating processes

    [run] starts one producer process and [_processes] worker processes,
    which share two FIFO queues with the caller.  Each process is a small
    program counter; a step of the system is a step of one process, and a
    [get] on an empty queue is a step that cannot be taken. *)

(** Where the caller stands in [run]. *)
Inductive main_pc : Type :=
| MStartProducer              (* before [producer.start()] *)
| MStartWorkers (k : nat)     (* [for pid in range(...)], [k] more to start *)
| MConsume (n : nat)          (* [for _ in tasks], [n] results still to get *)
| MShutdown (k : nat)         (* [for _ in workers], [k] more to signal *)
| MReturned.

(** [_producer]: the tasks it still has to put. *)
Inductive producer_pc : Type :=
| PNotStarted
| PPut (rest : list pyobj).

(** [_worker]: before [random.seed()], at [task_queue.get()], between the
    [get] of a task and the [put] of its result, after [break]. *)
Inductive worker_pc : Type :=
| WSeed
| WGet
| WPut (task : pyobj)
| WExited.

Record state (S : Type) : Type := State {
  main : main_pc;
  producer : producer_pc;
  workers : list worker_pc;
  task_queue : list pyobj;
  result_queue : list pyobj;
  caller : S;
  trace : list event
}.
Global Arguments State {S}.
Global Arguments main {S}.
Global Arguments producer {S}.
Global Arguments workers {S}.
Global Arguments task_queue {S}.
Global Arguments result_queue {S}.
Global Arguments caller {S}.
Global Arguments trace {S}.

(** Who takes the next step. *)
Inductive actor : Type :=
| AMain
| AProducer
| AWorker (i : nat).

Section Run.
Context {S : Type}.
Variable self : engine.
Variable tasks : list pyobj.
Variables (render : render_fn) (update : update_fn S).
Variables (render_args : args) (render_kwargs : kwargs).
Variables (update_args : args) (update_kwargs : kwargs).

(** The state on entry of [run]: both queues were just created. *)
Definition init_state (caller0 : S) : state S :=
  State MStartProducer PNotStarted [] [] [] caller0 [].

(** One step of the caller inside [run]. *)
Definition main_step (s : state S) : option (state S) :=
  match main s with
  | MStartProducer =>
      Some (State (MStartWorkers (Z.to_nat (_processes self))) (PPut tasks)
              (workers s) (task_queue s) (result_queue s) (caller s) (trace s))
  | MStartWorkers (Datatypes.S k) =>
      Some (State (MStartWorkers k) (producer s) (workers s ++ [WSeed])
              (task_queue s) (result_queue s) (caller s) (trace s))
  | MStartWorkers O =>
      Some (State (MConsume (length tasks)) (producer s) (workers s)
              (task_queue s) (result_queue s) (caller s) (trace s))
  | MConsume (Datatypes.S n) =>
      match result_queue s with
      | [] => None
      | result :: rq =>
          Some (State (MConsume n) (producer s) (workers s) (task_queue s) rq
                  (update result update_args update_kwargs (caller s))
                  (trace s ++ [EvUpdate result]))
      end
  | MConsume O =>
      Some (State (MShutdown (length (workers s))) (producer s) (workers s)
              (task_queue s) (result_queue s) (caller s) (trace s))
  | MShutdown (Datatypes.S k) =>
      Some (State (MShutdown k) (producer s) (workers s)
              (task_queue s ++ [ShutdownSignal]) (result_queue s)
              (caller s) (trace s))
  | MShutdown O =>
      Some (State MReturned (producer s) (workers s) (task_queue s)
              (result_queue s) (caller s) (trace s))
  | MReturned => None
  end.

(** One step of [_producer]: [task_queue.put(task)]. *)
Definition producer_step (s : state S) : option (state S) :=
  match producer s with
  | PPut (task :: rest) =>
      Some (State (main s) (PPut rest) (workers s) (task_queue s ++ [task])
              (result_queue s) (caller s) (trace s))
  | PPut [] => None
  | PNotStarted => None
  end.

(** One step of a [_worker] on its own program counter and the two queues;
    it answers the new counter, the new queues and the events of the step. *)
Definition worker_step (w : worker_pc) (tq rq : list pyobj)
    : option (worker_pc * list pyobj * list pyobj * list event) :=
  match w with
  | WSeed => Some (WGet, tq, rq, [])
  | WGet =>
      match tq with
      | [] => None
      | task :: tq' =>
          if is_None task then Some (WExited, tq', rq, [])
          else Some (WPut task, tq', rq, [])
      end
  | WPut task =>
      let result := render task render_args render_kwargs in
      Some (WGet, tq, rq ++ [result], [EvRender task; EvResult result])
  | WExited => None
  end.

Definition exec_step (a : actor) (s : state S) : option (state S) :=
  match a with
  | AMain => main_step s
  | AProducer => producer_step s
  | AWorker i =>
      w ← workers s !! i;
      '(w', tq, rq, evs) ← worker_step w (task_queue s) (result_queue s);
      Some (State (main s) (producer s) (<[i:=w']> (workers s)) tq rq
              (caller s) (trace s ++ evs))
  end.

(** A schedule is the order in which the processes take their steps. *)
Fixpoint exec (sched : list actor) (s : state S) : option (state S) :=
  match sched with
  | [] => Some s
  | a :: rest => s' ← exec_step a s; exec rest s'
  end.

(** [run] has returned to its caller. *)
Definition returned (s : state S) : bool :=
  match main s with MReturned => true | _ => false end.

(** **** Accounting

    Where the tasks of a run are: not yet put by the producer, waiting on
    the task queue, or held by a worker that has not put the result yet. *)

Definition unsent (p : producer_pc) : list pyobj :=
  match p with PNotStarted => tasks | PPut rest => rest end.

Definition queued (tq : list pyobj) : list pyobj :=
  omap (fun v => if is_None v then None else Some v) tq.

Definition task_of (w : worker_pc) : option pyobj :=
  match w with WPut task => Some task | _ => None end.

Definition held (ws : list worker_pc) : list pyobj := omap task_of ws.

(** A bound on the number of steps the system can still take. *)
Definition main_weight (m : main_pc) (nworkers : nat) : nat :=
  match m with
  | MStartProducer =>
      8 * length tasks + 7 * Z.to_nat (_processes self) + 5 * nworkers + 4
  | MStartWorkers k => 7 * k + 3 * length tasks + 5 * nworkers + 3
  | MConsume n => 3 * n + 5 * nworkers + 2
  | MShutdown k => 5 * k + 1
  | MReturned => 0
  end%nat.

Definition producer_weight (p : producer_pc) : nat :=
  match p with PNotStarted => 0 | PPut rest => 5 * length rest end%nat.

Definition worker_weight (w : worker_pc) : nat :=
  match w with WSeed => 1 | WGet => 0 | WPut _ => 3 | WExited => 0 end%nat.

Definition measure (s : state S) : nat :=
  (main_weight (main s) (length (workers s))
   + producer_weight (producer s)
   + sum_list_with worker_weight (workers s)
   + 4 * length (task_queue s)
   + 2 * length (result_queue s))%nat.

(** **** What every reachable state satisfies *)

(** The caller has not begun to signal the shutdown. *)
Definition before_shutdown (m : main_pc) : bool :=
  match m with
  | MStartProducer | MStartWorkers _ | MConsume _ => true
  | MShutdown _ | MReturned => false
  end.

(** What the program counter of the caller says about the rest. *)
Definition phase_ok (s : state S) : Prop :=
  match main s with
  | MStartProducer =>
      producer s = PNotStarted /\ workers s = [] /\ task_queue s = [] /\
      result_queue s = [] /\ trace s = []
  | MStartWorkers k =>
      producer s <> PNotStarted /\
      (length (workers s) + k)%nat = Z.to_nat (_processes self) /\
      updates (trace s) = []
  | MConsume n =>
      producer s <> PNotStarted /\
      length (workers s) = Z.to_nat (_processes self) /\
      (n + length (updates (trace s)))%nat = length tasks
  | MShutdown _ | MReturned =>
      producer s <> PNotStarted /\
      length (workers s) = Z.to_nat (_processes self) /\
      length (updates (trace s)) = length tasks
  end.

Record inv (caller0 : S) (s : state S) : Prop := Inv {
  (* every task is accounted for, once *)
  inv_perm :
    Permutation
      (map (fun task => render task render_args render_kwargs) tasks)
      (updates (trace s) ++ result_queue s
       ++ map (fun task => render task render_args render_kwargs)
            (held (workers s) ++ queued (task_queue s)
             ++ unsent (producer s)));
  (* the result queue is first in, first out *)
  inv_fifo : received (trace s) = updates (trace s) ++ result_queue s;
  (* every result on the queue is the render of a task *)
  inv_rendered :
    map (fun task => render task render_args render_kwargs)
      (rendered (trace s))
    = received (trace s);
  (* the caller's state is the fold of the results handed to [update] *)
  inv_caller :
    caller s
    = fold_left (fun c r => update r update_args update_kwargs c)
        (updates (trace s)) caller0;
  inv_unsent : Forall is_task (unsent (producer s));
  inv_phase : phase_ok s;
  (* until the shutdown there is no signal around and no worker has left *)
  inv_quiet :
    before_shutdown (main s) = true ->
    Forall is_task (task_queue s) /\
    Forall (fun w => w <> WExited) (workers s)
}.

End Run.

(** **** An example run

    Tasks [0, 1, 2, 3], [render(t) = t * t], two workers, and an [update]
    that adds the result to a running total.  In [example_schedule] each
    worker puts its result before the other one that took its task first,
    so the results reach [update] out of submission order. *)

Definition total_of (result : pyobj) : Z :=
  match result with PyInt z => z | _ => 0 end.

Definition add_total : update_fn Z :=
  fun result _ _ total => total + total_of result.

Definition example_tasks : list pyobj := [PyInt 0; PyInt 1; PyInt 2; PyInt 3].

Definition example_schedule : list actor :=
  [AMain; AMain; AMain; AMain;
   AProducer; AProducer; AProducer; AProducer;
   AWorker 0; AWorker 1; AWorker 0; AWorker 1; AWorker 1; AWorker 0;
   AMain; AMain;
   AWorker 1; AWorker 0; AWorker 0; AWorker 1;
   AMain; AMain;
   AMain; AMain; AMain; AMain].

Definition example_engine : engine := {| _processes := 2 |}.

(** The state [example_schedule] ends in: the results were handed to
    [update] out of submission order, the total is [0 + 1 + 4 + 9]. *)
Definition example_final : state Z :=
  State MReturned (PPut []) [WGet; WGet]
    [ShutdownSignal; ShutdownSignal] [] 14
    [EvRender (PyInt 1); EvResult (PyInt 1);
     EvRender (PyInt 0); EvResult (PyInt 0);
     EvUpdate (PyInt 1); EvUpdate (PyInt 0);
     EvRender (PyInt 3); EvResult (PyInt 9);
     EvRender (PyInt 2); EvResult (PyInt 4);
     EvUpdate (PyInt 9); EvUpdate (PyInt 4)].

(** A run whose only task is [None], with one worker: the worker takes
    the task for the shutdown signal. *)
Definition none_schedule : list actor :=
  [AMain; AMain; AMain; AProducer; AWorker 0; AWorker 0].

Definition none_final : state Z :=
  State (MConsume 1) (PPut []) [WExited] [] [] 0 [].

End MulticoreEngine.

(* ===================================================================== *)
(** ** The VTK importer: [raysect/primitive/mesh/vtk.py]                 *)
(* ===================================================================== *)

Module VTKHandler.

Definition VTK_AUTOMATIC : string := "auto".
Definition VTK_ASCII : string := "ascii".
Definition VTK_BINARY : string := "binary".

Definition binary_msg : string :=
  "The binary .vtk loading routine has not been implemented yet.".

(** ['Unrecognised import mode, valid values are: {}'.format(modes)] *)
Definition unrecognised_msg (modes : list string) : string :=
  ("Unrecognised import mode, valid values are: " ++ repr_tuple modes)%string.

(** Access to the file system by the importer. *)
Inductive io_event : Type :=
| EvOpen (filename : string).

Section ImportVtk.
(** The arrays of vertices and triangles, the [Mesh] class, the type of the
    scaling factor and of the values of [**kwargs] belong to numpy and to
    [raysect.primitive.mesh]; the importer only passes them on. *)
Context {vertices triangles mesh scale kwval : Type}.
(** A [str] as a keyword value. *)
Variable of_str : string -> kwval.
(** What parsing the file [filename] as ASCII yields on the current file
    system: the body of [_load_ascii] under [with open(filename, 'r')]. *)
Variable parse_ascii :
  string -> scale -> result (vertices * triangles * string).
(** [Mesh(vertices, triangles, smoothing=..., **kwargs)] *)
Variable Mesh :
  vertices -> triangles -> bool -> gmap string kwval -> result mesh.

(** [_load_ascii]: opens the file, then parses it. *)
Definition _load_ascii (filename : string) (scaling : scale)
    : result (vertices * triangles * string) * list io_event :=
  (parse_ascii filename scaling, [EvOpen filename]).

(** [mesh_name or "VTKMesh"] *)
Definition name_or_default (mesh_name : string) : string :=
  match mesh_name with EmptyString => "VTKMesh" | _ => mesh_name end.

(** The end of [my_import_vtk], once the arrays are loaded. *)
Definition build_mesh (loaded : vertices * triangles * string)
    (kwargs : gmap string kwval) : result mesh :=
  let '(vs, ts, mesh_name) := loaded in
  let kwargs :=
    match kwargs !! "name" with
    | Some _ => kwargs
    | None => <["name" := of_str (name_or_default mesh_name)]> kwargs
    end in
  Mesh vs ts false kwargs.

(** [my_import_vtk(filename, scaling, mode, **kwargs)]: the outcome and
    the accesses to the file system, oldest first. *)
Definition my_import_vtk (filename : string) (scaling : scale)
    (mode : string) (kwargs : gmap string kwval)
    : result mesh * list io_event :=
  let mode := lower mode in
  if String.eqb mode VTK_ASCII then
    match _load_ascii filename scaling with
    | (Ok loaded, io) => (build_mesh loaded kwargs, io)
    | (Raise e, io) => (Raise e, io)
    end
  else if String.eqb mode VTK_BINARY then
    (Raise (NotImplementedError binary_msg), [])
  else if String.eqb mode VTK_AUTOMATIC then
    match _load_ascii filename scaling with
    | (Ok loaded, io) => (build_mesh loaded kwargs, io)
    | (Raise (ValueError _), io) => (Raise (NotImplementedError binary_msg), io)
    | (Raise e, io) => (Raise e, io)
    end
  else
    let modes := [VTK_ASCII; VTK_BINARY] in
    (Raise (ValueError (unrecognised_msg modes)), []).

End ImportVtk.

(** The modes the dispatch of [my_import_vtk] has a branch for, which are
    the ones its docstring names: ['ascii'], ['binary'], ['auto']. *)
Definition accepted_modes : list string :=
  [VTK_ASCII; VTK_BINARY; VTK_AUTOMATIC].

End VTKHandler.

(* ===================================================================== *)
(** ** The ASCII reader of [vtk.py]                                      *)
(* ===================================================================== *)

Module VTKReader.

(** Text is made of characters with code points below 256.
    [str.isspace()] on such a character: tab to carriage return, the four
    separators from file to unit, the space, next line and the no-break
    space. *)
Definition is_space (c : ascii) : bool :=
  let n := nat_of_ascii c in
  (((9 <=? n) && (n <=? 13)) || ((28 <=? n) && (n <=? 32))
   || (n =? 133) || (n =? 160))%nat.

(** [s.lstrip()], [s.rstrip()] and [s.strip()] *)
Fixpoint lstrip (s : string) : string :=
  match s with
  | EmptyString => EmptyString
  | String c rest => if is_space c then lstrip rest else s
  end.

Fixpoint rstrip (s : string) : string :=
  match s with
  | EmptyString => EmptyString
  | String c rest =>
      match rstrip rest with
      | EmptyString => if is_space c then EmptyString else String c EmptyString
      | kept => String c kept
      end
  end.

Definition strip (s : string) : string := rstrip (lstrip s).

(** [s.split()]: the maximal runs of characters that are not white space;
    [cur] is the run being read. *)
Fixpoint split_from (cur : string) (s : string) : list string :=
  match s with
  | EmptyString =>
      match cur with EmptyString => [] | _ => [cur] end
  | String c rest =>
      if is_space c then
        match cur with
        | EmptyString => split_from EmptyString rest
        | _ => cur :: split_from EmptyString rest
        end
      else split_from (cur ++ String c EmptyString)%string rest
  end.

Definition split (s : string) : list string := split_from EmptyString s.

(** A file open for reading is the list of the lines still to be read,
    each as [readline()] returns it; at the end of the file [readline()]
    returns the empty string, again and again. *)
Definition file : Type := list string.

Definition readline (f : file) : string * file :=
  match f with
  | [] => (EmptyString, [])
  | line :: rest => (line, rest)
  end.

(** The lines of a text: each ends with its newline, but for a last line
    without one.  [cur] is the line being read. *)
Fixpoint lines_from (cur : string) (text : string) : file :=
  match text with
  | EmptyString =>
      match cur with EmptyString => [] | _ => [cur] end
  | String c rest =>
      if Ascii.eqb c "010" then
        (cur ++ String c EmptyString)%string :: lines_from EmptyString rest
      else lines_from (cur ++ String c EmptyString)%string rest
  end.

Definition lines (text : string) : file := lines_from EmptyString text.

(** The pieces of the two patterns: a literal at the start of the text,
    and [[0-9]*] matched greedily. *)
Fixpoint after_literal (literal s : string) : option string :=
  match literal, s with
  | EmptyString, _ => Some s
  | String a literal, String b s =>
      if Ascii.eqb a b then after_literal literal s else None
  | String _ _, EmptyString => None
  end.

Definition is_digit (c : ascii) : bool :=
  let n := nat_of_ascii c in ((48 <=? n) && (n <=? 57))%nat.

Fixpoint digits_then (s : string) : string * string :=
  match s with
  | EmptyString => (EmptyString, EmptyString)
  | String c rest =>
      if is_digit c then
        let '(digits, rest') := digits_then rest in (String c digits, rest')
      else (EmptyString, s)
  end.

(** [re.match] with the pattern of [_ascii_read_vertices]: the word
    POINTS, a run of white space, a group of digits, a run of white space,
    the word float, each run possibly empty.  It answers group 1 of the
    match, if there is one.  No other way to match exists than the greedy
    one: white space, digits and the letter f exclude one another. *)
Definition match_points (s : string) : option string :=
  rest ← after_literal "POINTS" s;
  let '(group1, rest) := digits_then (lstrip rest) in
  _ ← after_literal "float" (lstrip rest);
  Some group1.

(** [re.match] with the pattern of [_ascii_read_triangles]: the word
    POLYGONS, then twice a run of white space and a group of digits.  It
    answers groups 1 and 2. *)
Definition match_polygons (s : string) : option (string * string) :=
  rest ← after_literal "POLYGONS" s;
  let '(group1, rest) := digits_then (lstrip rest) in
  let '(group2, _) := digits_then (lstrip rest) in
  Some (group1, group2).

(** [int(s)] on the digits a group has matched, and ['{}'.format(n)] on a
    count. *)
Definition int_of_digits (s : string) : result nat :=
  match NilZero.uint_of_string s with
  | Some d => Ok (Nat.of_uint d)
  | None =>
      Raise (ValueError
               ("invalid literal for int() with base 10: " ++ repr_str s)%string)
  end.

Definition format_nat (n : nat) : string :=
  NilZero.string_of_uint (Nat.to_uint n).

(** What the reader may raise: an exception of [Py.exn], or [IndexError]
    (from a subscript out of range, of a list or of an array). *)
Inductive error : Type :=
| Builtin (e : exn)
| IndexError.

Inductive outcome (A : Type) : Type :=
| Return (a : A)
| Throw (e : error).
Global Arguments Return {A} a.
Global Arguments Throw {A} e.

Definition unrecognised_dataset : error :=
  Builtin (RuntimeError "Unrecognised dataset encountered in vtk file.").

Section Reader.
(** A coordinate as stored in the array of vertices and an index as stored
    in the array of triangles; [coord_of x] is [float(x) * scaling] for the
    scaling of the call and [index_of x] is [int(x)] stored as [np.int32].
    [open_file] is [open(filename, 'r')] on the current file system. *)
Context {coord index : Type}.
Variable coord_of : string -> result coord.
Variable index_of : string -> result index.
Variable open_file : string -> result file.

(** The inner loop of [_ascii_read_vertices] over the items of one line,
    three by three; [n] is [num_points], [i] the next row and [rows] the
    rows written so far. *)
Fixpoint read_coordinates (n : nat) (coordinates : list string) (i : nat)
    (rows : list (coord * coord * coord))
    : outcome (nat * list (coord * coord * coord)) :=
  match coordinates with
  | [] => Return (i, rows)
  | x :: rest =>
      match coord_of x with
      | Raise e => Throw (Builtin e)
      | Ok a =>
          if (n <=? i)%nat then Throw IndexError
          else
            match rest with
            | [] => Throw IndexError
            | y :: rest =>
                match coord_of y with
                | Raise e => Throw (Builtin e)
                | Ok b =>
                    match rest with
                    | [] => Throw IndexError
                    | z :: rest =>
                        match coord_of z with
                        | Raise e => Throw (Builtin e)
                        | Ok c =>
                            read_coordinates n rest (Datatypes.S i)
                              (rows ++ [(a, b, c)])
                        end
                    end
                end
            end
      end
  end.

(** The outer loop, [while i < num_points]; [fuel] bounds the number of
    lines it may read, and [None] says that the bound was reached. *)
Fixpoint read_vertex_lines (fuel : nat) (n : nat) (f : file) (i : nat)
    (rows : list (coord * coord * coord))
    : option (outcome (list (coord * coord * coord) * file)) :=
  if (n <=? i)%nat then Some (Return (rows, f))
  else
    match fuel with
    | O => None
    | Datatypes.S fuel =>
        let '(line, f) := readline f in
        match read_coordinates n (split line) i rows with
        | Throw e => Some (Throw e)
        | Return (i, rows) => read_vertex_lines fuel n f i rows
        end
    end.

Definition _ascii_read_vertices (fuel : nat) (f : file)
    : option (outcome (list (coord * coord * coord) * file)) :=
  let '(line, f) := readline f in
  match match_points (strip line) with
  | None => Some (Throw unrecognised_dataset)
  | Some group1 =>
      match int_of_digits group1 with
      | Raise e => Some (Throw (Builtin e))
      | Ok num_points => read_vertex_lines fuel num_points f O []
      end
  end.

(** [while not match: match = re.match(..., f.readline())] *)
Fixpoint find_polygons (fuel : nat) (f : file)
    : option ((string * string) * file) :=
  match fuel with
  | O => None
  | Datatypes.S fuel =>
      let '(line, f) := readline f in
      match match_polygons line with
      | Some groups => Some (groups, f)
      | None => find_polygons fuel f
      end
  end.

(** One turn of [for i in range(num_triangles)] on the items of a line. *)
Definition read_triangle (specification : list string)
    : outcome (index * index * index) :=
  match specification with
  | _ :: a :: rest =>
      match index_of a with
      | Raise e => Throw (Builtin e)
      | Ok a =>
          match rest with
          | [] => Throw IndexError
          | b :: rest =>
              match index_of b with
              | Raise e => Throw (Builtin e)
              | Ok b =>
                  match rest with
                  | [] => Throw IndexError
                  | c :: _ =>
                      match index_of c with
                      | Raise e => Throw (Builtin e)
                      | Ok c => Return (a, b, c)
                      end
                  end
              end
          end
      end
  | _ => Throw IndexError
  end.

Fixpoint read_triangle_lines (n : nat) (f : file)
    (rows : list (index * index * index))
    : outcome (list (index * index * index)) :=
  match n with
  | O => Return rows
  | Datatypes.S n =>
      let '(line, f) := readline f in
      match read_triangle (split line) with
      | Throw e => Throw e
      | Return row => read_triangle_lines n f (rows ++ [row])
      end
  end.

Definition _ascii_read_triangles (fuel : nat) (f : file)
    : option (outcome (list (index * index * index))) :=
  match find_polygons fuel f with
  | None => None
  | Some ((group1, _), f) =>
      match int_of_digits group1 with
      | Raise e => Some (Throw (Builtin e))
      | Ok num_triangles => Some (read_triangle_lines num_triangles f [])
      end
  end.

(** The body of [_load_ascii]. *)
Definition _load_ascii (fuel : nat) (filename : string)
    : option (outcome (list (coord * coord * coord)
                       * list (index * index * index) * string)) :=
  match open_file filename with
  | Raise e => Some (Throw (Builtin e))
  | Ok f =>
      let '(line, f) := readline f in
      if negb (String.eqb (strip line) "# vtk DataFile Version 4.2") then
        Some (Throw (Builtin (AssertionError "")))
      else
        let '(line, f) := readline f in
        let mesh_name := strip line in
        let '(line, f) := readline f in
        if negb (String.eqb (strip line) "ASCII") then
          Some (Throw (Builtin (AssertionError "")))
        else
          let '(line, f) := readline f in
          if negb (String.eqb (strip line) "DATASET POLYDATA") then
            Some (Throw unrecognised_dataset)
          else
            match _ascii_read_vertices fuel f with
            | None => None
            | Some (Throw e) => Some (Throw e)
            | Some (Return (vertices, f)) =>
                match _ascii_read_triangles fuel f with
                | None => None
                | Some (Throw e) => Some (Throw e)
                | Some (Return triangles) =>
                    Some (Return (vertices, triangles, mesh_name))
                end
            end
  end.

(** The vertex lines [body] read one after the other, without a look at
    the number of rows reached in between. *)
Fixpoint read_all (n : nat) (body : list string) (i : nat)
    (rows : list (coord * coord * coord))
    : outcome (nat * list (coord * coord * coord)) :=
  match body with
  | [] => Return (i, rows)
  | line :: body =>
      match read_coordinates n (split line) i rows with
      | Throw e => Throw e
      | Return (i, rows) => read_all n body i rows
      end
  end.

End Reader.

(** A line without an item: empty, or white space only. *)
Definition blank (line : string) : Prop := split line = [].

(** The items of some lines taken three by three, each converted. *)
Fixpoint triples {A : Type} (convert : string -> result A)
    (items : list string) : option (list (A * A * A)) :=
  match items with
  | [] => Some []
  | x :: y :: z :: rest =>
      match convert x, convert y, convert z, triples convert rest with
      | Ok a, Ok b, Ok c, Some more => Some ((a, b, c) :: more)
      | _, _, _, _ => None
      end
  | _ => None
  end.

(** Two small files for examples: a mesh of three vertices and one
    triangle, and the same file cut after its [POINTS] line. *)
Definition sample_file : file :=
  ["# vtk DataFile Version 4.2" ++ String "010" "";
   "one triangle" ++ String "010" "";
   "ASCII" ++ String "010" "";
   "DATASET POLYDATA" ++ String "010" "";
   "POINTS 3 float" ++ String "010" "";
   "0 0 0 1 0 0 " ++ String "010" "";
   "0 1 0 " ++ String "010" "";
   String "010" "";
   "POLYGONS 1 4" ++ String "010" "";
   "3 0 1 2" ++ String "010" ""]%string.

Definition cut_file : file := take 5 sample_file.

(** Stand-ins for [float(x) * scaling] and for [int(x)] stored as
    [np.int32] in the examples: they read a count. *)
Definition sample_number (x : string) : result nat := int_of_digits x.

End VTKReader.

(* ===================================================================== *)
(** ** The ASCII writer of [vtk.py]                                      *)
(* ===================================================================== *)

Module VTKWriter.

Import VTKReader.

Local Open Scope string_scope.

Definition nl : string := String "010" "".

(** The [triangle_data] and [vertex_data] arguments: [None], a dictionary
    in the order of its items, or an object of another type with its
    truth value.  The values of a dictionary are sequences, or objects
    that [len] refuses. *)
Inductive data (value : Type) : Type :=
| DataNone
| DataDict (items : list (string * option (list value)))
| DataOther (truth : bool).
Global Arguments DataNone {value}.
Global Arguments DataDict {value} items.
Global Arguments DataOther {value} truth.

(** [if data:] *)
Definition truthy {value : Type} (d : data value) : bool :=
  match d with
  | DataNone => false
  | DataDict [] => false
  | DataDict (_ :: _) => true
  | DataOther truth => truth
  end.

Definition data_msg : string :=
  "The triangle_data argument in write_vtk() must be a dictionary or arrays/lists with length equal to the number of triangles.".

Definition vertex_data_msg : string :=
  "write_vtk() does not currently support mesh vertex data.".

(** The two fixed blocks of the file. *)
Definition header : string :=
  "# vtk DataFile Version 4.2" ++ nl ++ "vtk output" ++ nl ++ "ASCII" ++ nl.

Definition metadata : string :=
  "METADATA" ++ nl ++ "INFORMATION 2" ++ nl
  ++ "NAME L2_NORM_RANGE LOCATION vtkDataArray" ++ nl
  ++ "DATA 2 2.37105 2.7879" ++ nl
  ++ "NAME L2_NORM_FINITE_RANGE LOCATION vtkDataArray" ++ nl
  ++ "DATA 2 2.37105 2.7879" ++ nl ++ nl.

(** The nested loops that write [per_line] elements on a line: [j] counts
    the elements already on the current line. *)
Fixpoint grouped {A : Type} (per_line : nat) (show : A -> string) (j : nat)
    (elements : list A) : string :=
  match elements with
  | [] => match j with O => "" | _ => nl end
  | x :: rest =>
      if (j <? per_line)%nat then
        show x ++ grouped per_line show (Datatypes.S j) rest
      else nl ++ show x ++ grouped per_line show 1 rest
  end.

(** The same loops seen line by line: the lines they write, without the
    newline at their ends; [cur] is the line being written. *)
Fixpoint body_lines {A : Type} (per_line : nat) (show : A -> string)
    (j : nat) (cur : string) (elements : list A) : list string :=
  match elements with
  | [] => match j with O => [] | _ => [cur] end
  | x :: rest =>
      if (j <? per_line)%nat then
        body_lines per_line show (Datatypes.S j) (cur ++ show x) rest
      else cur :: body_lines per_line show 1 (show x) rest
  end.

(** The text made of some lines, a newline after each. *)
Fixpoint unlines (bodies : list string) : string :=
  match bodies with
  | [] => ""
  | body :: rest => body ++ nl ++ unlines rest
  end.

(** No newline inside. *)
Fixpoint one_line (s : string) : bool :=
  match s with
  | EmptyString => true
  | String c rest => negb (Ascii.eqb c "010") && one_line rest
  end.

(** The lines of [metadata], without their newlines. *)
Definition metadata_bodies : list string :=
  ["METADATA"; "INFORMATION 2"; "NAME L2_NORM_RANGE LOCATION vtkDataArray";
   "DATA 2 2.37105 2.7879"; "NAME L2_NORM_FINITE_RANGE LOCATION vtkDataArray";
   "DATA 2 2.37105 2.7879"; ""].

Section Writer.
(** How [str.format] prints a coordinate of the array of vertices, an index
    of the array of triangles and a value of a dataset. *)
Context {coord index value : Type}.
Variable show_coord : coord -> string.
Variable show_index : index -> string.
Variable show_value : value -> string.

Record mesh : Type := Mesh {
  name : string;
  vertices : list (coord * coord * coord);
  triangles : list (index * index * index)
}.

Definition show_vertex (v : coord * coord * coord) : string :=
  show_coord v.1.1 ++ " " ++ show_coord v.1.2 ++ " "
  ++ show_coord v.2 ++ " ".

Definition show_triangle (t : index * index * index) : string :=
  "3 " ++ show_index t.1.1 ++ " " ++ show_index t.1.2 ++ " "
  ++ show_index t.2 ++ nl.

Fixpoint concat_map {A : Type} (show : A -> string) (l : list A) : string :=
  match l with
  | [] => ""
  | x :: rest => show x ++ concat_map show rest
  end.

(** The items of a vertex on its line, and a triangle's line without its
    newline. *)
Definition vertex_items (v : coord * coord * coord) : list string :=
  [show_coord v.1.1; show_coord v.1.2; show_coord v.2].

Definition triangle_body (t : index * index * index) : string :=
  "3 " ++ show_index t.1.1 ++ " " ++ show_index t.1.2 ++ " "
  ++ show_index t.2.

(** [_ascii_write_geometry]: what it writes. *)
Definition _ascii_write_geometry (m : mesh) : string :=
  let num_triangles := length (triangles m) in
  let num_vertices := length (vertices m) in
  "DATASET POLYDATA" ++ nl
  ++ "POINTS " ++ format_nat num_vertices ++ " float" ++ nl
  ++ grouped 3 show_vertex 0 (vertices m)
  ++ metadata
  ++ "POLYGONS " ++ format_nat num_triangles ++ " "
  ++ format_nat (4 * num_triangles) ++ nl
  ++ concat_map show_triangle (triangles m).

(** The loop of [_ascii_write_triangle_data] over the items of the
    dictionary: what it writes, and how it ends. *)
Fixpoint write_datasets (num_triangles : nat)
    (items : list (string * option (list value))) : string * result unit :=
  match items with
  | [] => ("", Ok tt)
  | (var_name, values) :: rest =>
      match values with
      | None => ("", Raise (ValueError data_msg))
      | Some values =>
          if negb (length values =? num_triangles)%nat then
            ("", Raise (ValueError data_msg))
          else
            let written :=
              "FIELD FieldData 1" ++ nl
              ++ "GroupIds 1 " ++ format_nat num_triangles ++ " float" ++ nl
              ++ grouped 9 (fun v => show_value v ++ " ") 0 values in
            let '(more, outcome) := write_datasets num_triangles rest in
            (written ++ more, outcome)
      end
  end.

Definition _ascii_write_triangle_data (m : mesh) (triangle_data : data value)
    : string * result unit :=
  let num_triangles := length (triangles m) in
  let written := nl ++ "CELL_DATA " ++ format_nat num_triangles ++ nl in
  match triangle_data with
  | DataDict items =>
      let '(more, outcome) := write_datasets num_triangles items in
      (written ++ more, outcome)
  | _ => (written, Raise (ValueError data_msg))
  end.

(** [_write_ascii]: the text written to the file, and how the call ends. *)
Definition _write_ascii (m : mesh) (triangle_data vertex_data : data value)
    : string * result unit :=
  let written := header ++ _ascii_write_geometry m in
  if truthy vertex_data then
    (written, Raise (NotImplementedError vertex_data_msg))
  else if truthy triangle_data then
    let '(more, outcome) := _ascii_write_triangle_data m triangle_data in
    (written ++ more, outcome)
  else (written, Ok tt).

(** The lines of the header and of the geometry, without the newline at
    their ends. *)
Definition geometry_bodies (m : mesh) : list string :=
  let num_triangles := length (triangles m) in
  let num_vertices := length (vertices m) in
  (["# vtk DataFile Version 4.2"; "vtk output"; "ASCII"; "DATASET POLYDATA";
    ("POINTS " ++ format_nat num_vertices ++ " float")%string]
   ++ body_lines 3 show_vertex 0 "" (vertices m)
   ++ metadata_bodies
   ++ [("POLYGONS " ++ format_nat num_triangles ++ " "
        ++ format_nat (4 * num_triangles))%string]
   ++ map triangle_body (triangles m))%list.

End Writer.

(** Digits only. *)
Fixpoint all_digits (s : string) : bool :=
  match s with
  | EmptyString => true
  | String c rest => is_digit c && all_digits rest
  end.

(** A word that [split] leaves whole: not empty, without white space. *)
Fixpoint spaceless (s : string) : bool :=
  match s with
  | EmptyString => true
  | String c rest => negb (is_space c) && spaceless rest
  end.

Definition word (s : string) : bool :=
  match s with EmptyString => false | _ => spaceless s end.


(** A mesh for examples, with counts for coordinates. *)
Definition sample_mesh : @mesh nat nat :=
  Mesh "a mesh"
    [(0, 0, 0); (1, 0, 0); (0, 1, 0); (0, 0, 1)]%nat
    [(0, 1, 2); (0, 2, 3)]%nat.

End VTKWriter.

(* ===================================================================== *)
(** ** More accounting on the engines                                    *)
(* ===================================================================== *)

Module Pool.

Import MulticoreEngine.

(** A series of assignments to [processes], each with the processor count
    the host reports at that time; an assignment that raises is caught by
    the caller, who goes on with the engine as the assignment left it. *)
Definition assign_all (assignments : list (Z * pyobj)) (self : engine)
    : engine :=
  fold_left (fun e a => fst (set_processes (fst a) (snd a) e))
    assignments self.

(** The shutdown signals waiting on the task queue, and the workers that
    have left their loop. *)
Definition signals (tq : list pyobj) : nat :=
  sum_list_with (fun v => if is_None v then 1%nat else 0%nat) tq.

Definition exited (ws : list worker_pc) : nat :=
  sum_list_with (fun w => match w with WExited => 1%nat | _ => 0%nat end) ws.

Section Run.
Context {S : Type}.
Variable self : engine.
Variable tasks : list pyobj.
Variables (render : render_fn) (update : update_fn S).
Variables (render_args : args) (render_kwargs : kwargs).
Variables (update_args : args) (update_kwargs : kwargs).

(** One signal for each worker that has not left: put already, or still to
    be put by the shutdown loop. *)
Definition signals_ok (s : state S) : Prop :=
  match main s with
  | MShutdown k =>
      (signals (task_queue s) + exited (workers s) + k)%nat
      = length (workers s)
  | MReturned =>
      (signals (task_queue s) + exited (workers s))%nat = length (workers s)
  | _ => signals (task_queue s) = 0%nat /\ exited (workers s) = 0%nat
  end.

(** The tasks of the run, each once: rendered, held by a worker, on the
    task queue or not yet put there. *)
Definition rendered_once (s : state S) : Prop :=
  Permutation tasks
    (rendered (trace s) ++ held (workers s) ++ queued (task_queue s)
     ++ unsent tasks (producer s)).

(** The same in submission order. *)
Definition in_order (s : state S) : Prop :=
  tasks
  = rendered (trace s) ++ held (workers s) ++ queued (task_queue s)
    ++ unsent tasks (producer s).

(** No process can take a step. *)
Definition quiescent (s : state S) : Prop :=
  forall a,
    exec_step self tasks render update render_args render_kwargs
      update_args update_kwargs a s = None.

End Run.

(** Two more example runs: the tasks of [example_tasks] with one worker and
    the appending [update], and no task at all with two workers. *)
Definition one_worker_schedule : list actor :=
  [AMain; AMain; AMain; AProducer; AWorker 0; AWorker 0; AProducer;
   AWorker 0; AMain; AProducer; AProducer; AWorker 0; AWorker 0;
   AWorker 0; AWorker 0; AMain; AWorker 0; AWorker 0; AMain; AMain;
   AMain; AMain; AMain].

Definition one_worker_final : state (list pyobj) :=
  State MReturned (PPut []) [WGet] [ShutdownSignal] []
    [PyInt 0; PyInt 1; PyInt 4; PyInt 9]
    [EvRender (PyInt 0); EvResult (PyInt 0); EvUpdate (PyInt 0);
     EvRender (PyInt 1); EvResult (PyInt 1);
     EvRender (PyInt 2); EvResult (PyInt 4); EvUpdate (PyInt 1);
     EvRender (PyInt 3); EvResult (PyInt 9);
     EvUpdate (PyInt 4); EvUpdate (PyInt 9)].

Definition no_task_schedule : list actor :=
  [AMain; AMain; AWorker 0; AMain; AMain; AMain; AMain; AWorker 0].

Definition no_task_final : state Z :=
  State (MShutdown 1) (PPut []) [WExited; WSeed] [] [] 7 [].

End Pool.

(* ===================================================================== *)
(** * Properties                                                          *)
(* ===================================================================== *)

(** ** Events *)

Lemma updates_app (tr1 tr2 : list event) :
  updates (tr1 ++ tr2) = updates tr1 ++ updates tr2.
Proof. apply omap_app. Qed.

Lemma received_app (tr1 tr2 : list event) :
  received (tr1 ++ tr2) = received tr1 ++ received tr2.
Proof. apply omap_app. Qed.

Lemma rendered_app (tr1 tr2 : list event) :
  rendered (tr1 ++ tr2) = rendered tr1 ++ rendered tr2.
Proof. apply omap_app. Qed.

(** ** Folding results in any order *)


(** ** RenderEngine *)

Module RenderEngineSpec.

(** C7: on the base class, [run] (whatever its arguments) and
    [worker_count] raise [NotImplementedError]; [run] neither calls
    [render] or [update] nor touches the caller's state before it fails. *)
Theorem base_methods_raise {S : Type} (tasks : list pyobj)
    (render : render_fn) (update : update_fn S)
    (render_args update_args : args) (render_kwargs update_kwargs : kwargs)
    (caller : S) :
  (exists msg,
     RenderEngine.run tasks render update render_args render_kwargs
       update_args update_kwargs caller
     = (caller, [], Raise (NotImplementedError msg))) /\
  (exists msg, RenderEngine.worker_count = Raise (NotImplementedError msg)).
Proof.
  split; exists RenderEngine.virtual_msg; reflexivity.
Qed.

End RenderEngineSpec.

(** ** SerialEngine *)

Module SerialEngineSpec.

Section Run.
Context {S : Type}.
Variables (render : render_fn) (update : update_fn S).
Variables (render_args : args) (render_kwargs : kwargs).
Variables (update_args : args) (update_kwargs : kwargs).

Local Abbreviation rnd := (fun task => render task render_args render_kwargs).
Local Abbreviation upd :=
  (fun result c => update result update_args update_kwargs c).
Local Abbreviation iteration :=
  (SerialEngine.iteration render render_args render_kwargs).

Lemma run_loop_spec (tasks : list pyobj) (caller : S) (tr : list event) :
  SerialEngine.run_loop render update render_args render_kwargs
    update_args update_kwargs tasks caller tr
  = (fold_left (fun c task => upd (rnd task) c) tasks caller,
     tr ++ flat_map iteration tasks).
Proof.
  revert caller tr.
  induction tasks as [|task rest IH]; intros caller tr; simpl.
  - by rewrite app_nil_r.
  - rewrite IH. by rewrite <- app_assoc.
Qed.

Lemma updates_iterations (tasks : list pyobj) :
  updates (flat_map iteration tasks) = map rnd tasks.
Proof.
  induction tasks as [|task rest IH]; simpl; [done|].
  by rewrite <- IH.
Qed.

Lemma rendered_iterations (tasks : list pyobj) :
  rendered (flat_map iteration tasks) = tasks.
Proof.
  induction tasks as [|task rest IH]; simpl; [done|].
  by rewrite <- IH at 2.
Qed.

Lemma run_caller (tasks : list pyobj) (caller : S) :
  fst (SerialEngine.run render update render_args render_kwargs
         update_args update_kwargs tasks caller)
  = fold_left (fun c r => upd r c) (map rnd tasks) caller.
Proof.
  unfold SerialEngine.run. rewrite run_loop_spec. simpl.
  revert caller. induction tasks as [|t rest IH]; intros c; simpl; [done|].
  apply IH.
Qed.

End Run.

(** C3: the serial engine renders the tasks in submission order and hands
    each result to [update] before the next task is rendered: its events are
    the iterations [render task; update result] laid end to end, so the
    arguments of [update] are the renders in submission order.  On tasks
    [0, 1, 2, 3] with [render(t) = t * t] and an appending [update] the
    caller's list ends as [0, 1, 4, 9]. *)
Theorem run_in_submission_order {S : Type}
    (render : render_fn) (update : update_fn S)
    (render_args update_args : args) (render_kwargs update_kwargs : kwargs)
    (tasks : list pyobj) (caller : S) :
  let out := SerialEngine.run render update render_args render_kwargs
               update_args update_kwargs tasks caller in
  snd out = flat_map (SerialEngine.iteration render render_args render_kwargs) tasks /\
  rendered (snd out) = tasks /\
  updates (snd out)
    = map (fun task => render task render_args render_kwargs) tasks /\
  fst out
    = fold_left (fun c r => update r update_args update_kwargs c)
        (updates (snd out)) caller /\
  SerialEngine.run square append [] [] [] []
    [PyInt 0; PyInt 1; PyInt 2; PyInt 3] []
  = ([PyInt 0; PyInt 1; PyInt 4; PyInt 9],
     [EvRender (PyInt 0); EvUpdate (PyInt 0);
      EvRender (PyInt 1); EvUpdate (PyInt 1);
      EvRender (PyInt 2); EvUpdate (PyInt 4);
      EvRender (PyInt 3); EvUpdate (PyInt 9)]).
Proof.
  intros out.
  assert (Hout : snd out
            = flat_map (SerialEngine.iteration render render_args render_kwargs) tasks).
  { unfold out, SerialEngine.run. by rewrite run_loop_spec. }
  split; [exact Hout|]. rewrite Hout.
  split; [apply rendered_iterations|].
  split; [apply updates_iterations|].
  split; [|reflexivity].
  rewrite updates_iterations. apply run_caller.
Qed.

End SerialEngineSpec.

(** ** MulticoreEngine: the [processes] property *)

Module ProcessesSpec.

Import MulticoreEngine.

Lemma set_None (cpu_count : Z) (self : engine) :
  set_processes cpu_count PyNone self = ({| _processes := cpu_count |}, Ok tt).
Proof. reflexivity. Qed.

(** The setter on a value that [int] converts: the conversion is compared
    with zero and stored when it is positive. *)
Lemma set_converted (cpu_count : Z) (self : engine) (v : pyobj) (z : Z) :
  v <> PyNone -> int v = Ok z ->
  set_processes cpu_count v self
  = if z <=? 0 then (self, Raise (ValueError zero_msg))
    else ({| _processes := z |}, Ok tt).
Proof.
  intros Hv Hz. unfold set_processes.
  destruct v; [congruence|..]; cbn [is_None]; by rewrite Hz.
Qed.

(** A value that [int] refuses leaves the engine as it was. *)
Lemma set_not_convertible (cpu_count : Z) (self : engine) (v : pyobj) (e : exn) :
  v <> PyNone -> int v = Raise e ->
  set_processes cpu_count v self = (self, Raise e).
Proof.
  intros Hv He. unfold set_processes.
  destruct v; [congruence|..]; cbn [is_None]; by rewrite He.
Qed.

(** An engine out of [__init__] on a host with at least one processor, and
    every engine a successful assignment leaves, has a positive count. *)
Lemma set_processes_valid (cpu_count : Z) (self self' : engine) (v : pyobj) :
  1 <= cpu_count ->
  set_processes cpu_count v self = (self', Ok tt) ->
  1 <= worker_count self'.
Proof.
  intros Hcpu. unfold set_processes.
  destruct (is_None v).
  - intros [= <-]. exact Hcpu.
  - destruct (int v) as [z|e]; [|discriminate].
    destruct (Z.leb_spec z 0); [discriminate|].
    intros [= <-]. simpl. lia.
Qed.

Lemma init_valid (cpu_count : Z) (v : pyobj) (self : engine) :
  1 <= cpu_count -> init cpu_count v = Ok self -> 1 <= worker_count self.
Proof.
  intros Hcpu. unfold init.
  destruct (set_processes _ _ _) as [self' [[]|e]] eqn:Hset; [|discriminate].
  intros [= <-]. by eapply set_processes_valid.
Qed.

(** C5: assigning [None] to [processes] stores the processor count the host
    reports when the assignment runs, assigning a positive integer stores
    that integer, and in both cases [worker_count()] then answers the stored
    value, which is what the getter of [processes] answers. *)
Theorem set_processes_worker_count (cpu_count : Z) (value : pyobj)
    (self : engine) :
  (value = PyNone \/ exists n, 0 < n /\ value = PyInt n) ->
  exists self',
    set_processes cpu_count value self = (self', Ok tt) /\
    worker_count self' = processes self' /\
    (value = PyNone -> worker_count self' = cpu_count) /\
    (forall n, value = PyInt n -> worker_count self' = n).
Proof.
  intros [->|(n & Hn & ->)].
  - exists {| _processes := cpu_count |}.
    split; [reflexivity|]. split; [reflexivity|]. split; [done|].
    intros n Hn. discriminate.
  - exists {| _processes := n |}.
    rewrite (set_converted _ _ _ n) by done.
    destruct (Z.leb_spec n 0); [lia|].
    split; [reflexivity|]. split; [reflexivity|]. split; [discriminate|].
    by intros ? [= <-].
Qed.

Lemma set_processes_worker_count_witness :
  exists self',
    set_processes 8 PyNone {| _processes := 4 |} = (self', Ok tt) /\
    worker_count self' = processes self' /\
    (PyNone = PyNone -> worker_count self' = 8) /\
    (forall n, PyNone = PyInt n -> worker_count self' = n).
Proof.
  apply (set_processes_worker_count 8 PyNone {| _processes := 4 |}).
  left. reflexivity.
Defined.

(** C6: assigning zero or a negative integer to [processes] raises
    [ValueError] out of the assignment itself and leaves the engine as it
    was: [worker_count()] still answers the count configured before. *)
Theorem set_processes_rejects_non_positive (cpu_count : Z) (n : Z)
    (self : engine) :
  n <= 0 ->
  set_processes cpu_count (PyInt n) self = (self, Raise (ValueError zero_msg)) /\
  worker_count (fst (set_processes cpu_count (PyInt n) self))
  = worker_count self.
Proof.
  intros Hn.
  rewrite (set_converted _ _ _ n) by done.
  destruct (Z.leb_spec n 0); [done|lia].
Qed.

Lemma set_processes_rejects_non_positive_witness :
  set_processes 8 (PyInt (-3)) {| _processes := 4 |}
  = ({| _processes := 4 |}, Raise (ValueError zero_msg)) /\
  worker_count (fst (set_processes 8 (PyInt (-3)) {| _processes := 4 |})) = 4.
Proof.
  apply (set_processes_rejects_non_positive 8 (-3) {| _processes := 4 |}).
  lia.
Defined.

(** C9: the setter converts with [int] before it validates.  For a value
    other than [None] that [int] converts to [z], the assignment succeeds
    exactly when [1 <= z] and then stores [z]; otherwise it raises the
    [ValueError] and stores nothing.  So [2.9] configures two workers and
    the positive value [0.5] is rejected. *)
Theorem set_processes_truncates (cpu_count : Z) (self : engine)
    (v : pyobj) (z : Z) :
  v <> PyNone -> int v = Ok z ->
  (snd (set_processes cpu_count v self) = Ok tt <-> 1 <= z) /\
  (1 <= z ->
   set_processes cpu_count v self = ({| _processes := z |}, Ok tt)) /\
  (z < 1 ->
   set_processes cpu_count v self = (self, Raise (ValueError zero_msg))) /\
  set_processes cpu_count (PyFloat float_2_9) self
  = ({| _processes := 2 |}, Ok tt) /\
  set_processes cpu_count (PyFloat float_0_5) self
  = (self, Raise (ValueError zero_msg)).
Proof.
  intros Hv Hz. rewrite (set_converted _ _ _ z) by done.
  destruct (Z.leb_spec z 0); simpl.
  - repeat split; try (intros; lia); try done.
  - repeat split; try (intros; lia); try done.
Qed.

Lemma set_processes_truncates_witness :
  (snd (set_processes 8 (PyFloat (FFinite 7 (-1))) {| _processes := 4 |})
   = Ok tt <-> 1 <= 3) /\
  (1 <= 3 ->
   set_processes 8 (PyFloat (FFinite 7 (-1))) {| _processes := 4 |}
   = ({| _processes := 3 |}, Ok tt)) /\
  (3 < 1 ->
   set_processes 8 (PyFloat (FFinite 7 (-1))) {| _processes := 4 |}
   = ({| _processes := 4 |}, Raise (ValueError zero_msg))) /\
  set_processes 8 (PyFloat float_2_9) {| _processes := 4 |}
  = ({| _processes := 2 |}, Ok tt) /\
  set_processes 8 (PyFloat float_0_5) {| _processes := 4 |}
  = ({| _processes := 4 |}, Raise (ValueError zero_msg)).
Proof.
  apply (set_processes_truncates 8 {| _processes := 4 |}
           (PyFloat (FFinite 7 (-1))) 3).
  - discriminate.
  - reflexivity.
Defined.

End ProcessesSpec.

(** ** VTKHandler: the mode dispatch of [my_import_vtk] *)

Module VTKHandlerSpec.

Import VTKHandler.

Section ImportVtk.
Context {vertices triangles mesh scale kwval : Type}.
Variable of_str : string -> kwval.
Variable parse_ascii :
  string -> scale -> result (vertices * triangles * string).
Variable Mesh :
  vertices -> triangles -> bool -> gmap string kwval -> result mesh.

Local Abbreviation import := (my_import_vtk of_str parse_ascii Mesh).

(** Mode ['binary'], in any letter case, raises [NotImplementedError]
    without a look at the file, so no [Mesh] comes out of it. *)
Lemma binary_mode_raises (filename : string) (scaling : scale)
    (mode : string) (kwargs : gmap string kwval) :
  lower mode = VTK_BINARY ->
  import filename scaling mode kwargs
  = (Raise (NotImplementedError binary_msg), []).
Proof. intros Hm. unfold my_import_vtk. by rewrite Hm. Qed.

(** A mode outside ['ascii'], ['binary'], ['auto'] raises [ValueError]
    without a look at the file. *)
Lemma unrecognised_mode_raises (filename : string) (scaling : scale)
    (mode : string) (kwargs : gmap string kwval) :
  lower mode ∉ accepted_modes ->
  import filename scaling mode kwargs
  = (Raise (ValueError (unrecognised_msg [VTK_ASCII; VTK_BINARY])), []).
Proof.
  intros Hm. unfold my_import_vtk.
  destruct (String.eqb_spec (lower mode) VTK_ASCII) as [E|_].
  { exfalso. apply Hm. rewrite E. set_solver. }
  destruct (String.eqb_spec (lower mode) VTK_BINARY) as [E|_].
  { exfalso. apply Hm. rewrite E. set_solver. }
  destruct (String.eqb_spec (lower mode) VTK_AUTOMATIC) as [E|_].
  { exfalso. apply Hm. rewrite E. set_solver. }
  reflexivity.
Qed.

(** C10: a mode whose lower-cased form is none of ['ascii'], ['binary'],
    ['auto'] raises [ValueError] before any file is opened, and mode
    ['binary'] raises [NotImplementedError]; but the message of the
    [ValueError] names ['ascii'] and ['binary'] only: ['auto'], which the
    dispatch accepts, is not in it. *)
Theorem unrecognised_mode_message (filename : string) (scaling : scale)
    (mode : string) (kwargs : gmap string kwval) :
  lower mode ∉ accepted_modes ->
  import filename scaling mode kwargs
  = (Raise (ValueError
       "Unrecognised import mode, valid values are: ('ascii', 'binary')"), [])
  /\ VTK_AUTOMATIC ∈ accepted_modes
  /\ contains (repr_str VTK_AUTOMATIC)
       (unrecognised_msg [VTK_ASCII; VTK_BINARY]) = false
  /\ contains (repr_str VTK_ASCII)
       (unrecognised_msg [VTK_ASCII; VTK_BINARY]) = true
  /\ (forall mode', lower mode' = VTK_BINARY ->
      import filename scaling mode' kwargs
      = (Raise (NotImplementedError binary_msg), [])).
Proof.
  intros Hm. split; [by apply unrecognised_mode_raises|].
  split; [set_solver|]. split; [by vm_compute|]. split; [by vm_compute|].
  intros mode'. apply binary_mode_raises.
Qed.

End ImportVtk.

Lemma unrecognised_mode_message_witness :
  my_import_vtk (fun s : string => s)
    (fun (_ : string) (_ : unit) => Ok (tt, tt, "m"%string))
    (fun (_ _ : unit) (_ : bool) (_ : gmap string string) => Ok tt)
    "part.vtk" tt "Foo" ∅
  = (Raise (ValueError
       "Unrecognised import mode, valid values are: ('ascii', 'binary')"), []).
Proof.
  refine (proj1 (unrecognised_mode_message (fun s : string => s)
           (fun (_ : string) (_ : unit) => Ok (tt, tt, "m"%string))
           (fun (_ _ : unit) (_ : bool) (_ : gmap string string) => Ok tt)
           "part.vtk" tt "Foo" ∅ _)).
  unfold accepted_modes. rewrite !not_elem_of_cons.
  repeat split; try discriminate. apply not_elem_of_nil.
Defined.

End VTKHandlerSpec.

(** ** MulticoreEngine: [run] *)

Module PoolSpec.

Import MulticoreEngine.

Example example_run :
  exec example_engine example_tasks square add_total [] [] [] []
    example_schedule (init_state 0)
  = Some example_final.
Proof. vm_compute. reflexivity. Qed.

(** Why the tasks of a run must not be [None]: on the task list [[None]]
    the only worker leaves without a result, the caller waits for one, and
    nobody can move any more. *)
Example none_task_deadlocks :
  exec {| _processes := 1 |} [PyNone] square add_total [] [] [] []
    none_schedule (init_state 0) = Some none_final /\
  returned none_final = false /\
  forall a,
    exec_step {| _processes := 1 |} [PyNone] square add_total [] [] [] []
      a none_final = None.
Proof.
  split; [reflexivity|]. split; [reflexivity|].
  intros [| |[|i]]; reflexivity.
Qed.

(** [random.seed()] is the first thing a worker does: it touches neither
    queue before. *)
Lemma worker_seeds_first (render : render_fn) (render_args : args)
    (render_kwargs : kwargs) (tq rq : list pyobj) :
  worker_step render render_args render_kwargs WSeed tq rq
  = Some (WGet, tq, rq, []).
Proof. reflexivity. Qed.

(** *** Bookkeeping on queues and workers *)

Lemma is_task_None (v : pyobj) : is_task v <-> is_None v = false.
Proof.
  unfold is_task, ShutdownSignal. destruct v; simpl; split; congruence.
Qed.

Lemma queued_app (tq1 tq2 : list pyobj) :
  queued (tq1 ++ tq2) = queued tq1 ++ queued tq2.
Proof. apply omap_app. Qed.

Lemma queued_cons_task (v : pyobj) (tq : list pyobj) :
  is_task v -> queued (v :: tq) = v :: queued tq.
Proof.
  intros Hv%is_task_None. unfold queued. simpl. by rewrite Hv.
Qed.

Lemma queued_cons_signal (v : pyobj) (tq : list pyobj) :
  is_None v = true -> queued (v :: tq) = queued tq.
Proof. intros Hv. unfold queued. simpl. by rewrite Hv. Qed.

(** Replacing the counter of one worker moves at most one task in or out
    of the tasks held by the workers. *)
Lemma held_insert (ws : list worker_pc) (i : nat) (w w' : worker_pc) :
  ws !! i = Some w ->
  Permutation (option_list (task_of w') ++ held ws)
    (option_list (task_of w) ++ held (<[i:=w']> ws)).
Proof.
  revert i. induction ws as [|w0 ws IH]; intros [|i] Hi; try done.
  - injection Hi as ->. unfold held. simpl.
    destruct (task_of w), (task_of w'); simpl; try done. apply perm_swap.
  - simpl in Hi. specialize (IH i Hi). unfold held in *. simpl.
    destruct (task_of w0) as [t0|]; [|exact IH].
    rewrite <- !Permutation_middle. by constructor.
Qed.

Lemma weight_insert (ws : list worker_pc) (i : nat) (w w' : worker_pc) :
  ws !! i = Some w ->
  (sum_list_with worker_weight (<[i:=w']> ws) + worker_weight w
   = sum_list_with worker_weight ws + worker_weight w')%nat.
Proof.
  revert i. induction ws as [|w0 ws IH]; intros [|i] Hi; try done.
  - injection Hi as ->. simpl. lia.
  - simpl in Hi. specialize (IH i Hi). simpl. lia.
Qed.

Lemma held_nonempty (ws : list worker_pc) :
  held ws <> [] -> exists i task, ws !! i = Some (WPut task).
Proof.
  induction ws as [|w ws IH]; [done|].
  destruct w; unfold held; simpl; intros H;
    try (destruct (IH H) as (i & t & Hi); by exists (Datatypes.S i), t).
  by exists O, task.
Qed.

(** *** The invariant *)

Section Run.
Context {St : Type}.
Variable self : engine.
Variable tasks : list pyobj.
Variables (render : render_fn) (update : update_fn St).
Variables (render_args : args) (render_kwargs : kwargs).
Variables (update_args : args) (update_kwargs : kwargs).
Variable caller0 : St.

Local Abbreviation rnd := (fun task => render task render_args render_kwargs).
Local Abbreviation step :=
  (exec_step self tasks render update render_args render_kwargs
     update_args update_kwargs).
Local Abbreviation run_from :=
  (exec self tasks render update render_args render_kwargs
     update_args update_kwargs).
Local Abbreviation I :=
  (inv self tasks render update render_args render_kwargs
     update_args update_kwargs caller0).
Local Abbreviation size := (measure self tasks).

Hypothesis tasks_legal : Forall is_task tasks.

Lemma inv_init : I (init_state caller0).
Proof.
  constructor; simpl; by rewrite ?app_nil_r.
Qed.

Lemma inv_main_step (s s' : state St) :
  I s -> main_step self tasks update update_args update_kwargs s = Some s' ->
  I s'.
Proof.
  intros [Hperm Hfifo Hrend Hcaller Hunsent Hphase Hquiet] Hstep.
  unfold main_step in Hstep. unfold phase_ok in Hphase.
  destruct s as [m p ws tq rq c tr]. simpl in *.
  destruct m as [|[|k]|[|n]|[|k]|]; simpl in *.
  - (* producer.start() *)
    injection Hstep as <-. destruct Hphase as (-> & -> & -> & -> & ->).
    constructor; simpl; try done.
  - (* all workers started *)
    injection Hstep as <-. destruct Hphase as (Hp & Hw & Hu).
    constructor; simpl; try done.
    unfold phase_ok. simpl. rewrite Hu. split; [done|]. split; simpl; lia.
  - (* p.start(); workers.append(p) *)
    injection Hstep as <-. destruct Hphase as (Hp & Hw & Hu).
    destruct (Hquiet eq_refl) as [Hq1 Hq2].
    constructor; simpl; try done.
    + unfold held. rewrite omap_app. simpl. by rewrite app_nil_r.
    + unfold phase_ok. simpl. rewrite length_app. simpl.
      split; [done|]. split; [lia|done].
    + intros _. split; [done|]. apply Forall_app. split; [done|].
      by repeat constructor.
  - (* every result consumed *)
    injection Hstep as <-. destruct Hphase as (Hp & Hw & Hu).
    constructor; simpl; try done.
  - (* result_queue.get(); update(result) *)
    destruct rq as [|r rq]; [done|].
    injection Hstep as <-. destruct Hphase as (Hp & Hw & Hu).
    constructor; simpl;
      rewrite ?updates_app, ?received_app, ?rendered_app; simpl;
      rewrite ?app_nil_r; try done.
    + by rewrite <- app_assoc.
    + by rewrite Hfifo, <- app_assoc.
    + by rewrite fold_left_app, <- Hcaller.
    + unfold phase_ok. simpl. rewrite updates_app, length_app. simpl.
      split; [done|]. split; [done|lia].
  - (* every worker signalled *)
    injection Hstep as <-. destruct Hphase as (Hp & Hw & Hu).
    constructor; simpl; try done.
  - (* task_queue.put(None) *)
    injection Hstep as <-. destruct Hphase as (Hp & Hw & Hu).
    constructor; simpl; try done.
    by rewrite queued_app, app_nil_r.
  - done.
Qed.

(** The caller has not moved: what its counter says still holds. *)
Ltac phase_same m :=
  unfold phase_ok in *; simpl in *; rewrite ?length_insert, ?updates_app;
  simpl; rewrite ?app_nil_r;
  destruct m; simpl in *;
  intuition (subst; rewrite ?lookup_nil in *; try done; try congruence).

Lemma inv_producer_step (s s' : state St) :
  I s -> producer_step s = Some s' -> I s'.
Proof.
  intros [Hperm Hfifo Hrend Hcaller Hunsent Hphase Hquiet] Hstep.
  unfold producer_step in Hstep. unfold phase_ok in Hphase.
  destruct s as [m p ws tq rq c tr]. simpl in *.
  destruct p as [|[|task rest]]; try done.
  injection Hstep as <-. simpl in Hunsent.
  apply Forall_cons in Hunsent as [Htask Hrest].
  constructor; simpl; try done.
  - rewrite Hperm. rewrite queued_app, (queued_cons_task task []) by done.
    simpl. by rewrite <- (app_assoc (queued tq)).
  - phase_same m.
  - intros Hm. destruct (Hquiet Hm) as [Hq1 Hq2]. split; [|done].
    apply Forall_app. split; [done|]. by repeat constructor.
Qed.

Lemma inv_worker_step (s s' : state St) (i : nat) :
  I s -> step (AWorker i) s = Some s' -> I s'.
Proof.
  intros [Hperm Hfifo Hrend Hcaller Hunsent Hphase Hquiet] Hstep.
  unfold phase_ok in Hphase.
  destruct s as [m p ws tq rq c tr]. simpl in *.
  destruct (ws !! i) as [w|] eqn:Hi; [|done]. simpl in Hstep.
  pose proof (held_insert ws i w) as Hheld.
  destruct w as [| |task|]; simpl in Hstep.
  - (* random.seed() *)
    injection Hstep as <-. specialize (Hheld WGet Hi). simpl in Hheld.
    constructor; simpl; rewrite ?app_nil_r; try done.
    + by rewrite <- Hheld.
    + phase_same m.
    + intros Hm. destruct (Hquiet Hm) as [Hq1 Hq2]. split; [done|].
      by apply Forall_insert.
  - (* task_queue.get() *)
    destruct tq as [|v tq]; [done|]. simpl in Hstep.
    destruct (is_None v) eqn:Hv; injection Hstep as <-.
    + (* the shutdown signal: break *)
      specialize (Hheld WExited Hi). simpl in Hheld.
      constructor; simpl; rewrite ?app_nil_r; try done.
      * rewrite <- Hheld. by rewrite (queued_cons_signal v) in Hperm.
      * phase_same m.
      * intros Hm. destruct (Hquiet Hm) as [Hq1 Hq2].
        apply Forall_cons in Hq1 as [Hq1 _].
        apply is_task_None in Hq1. congruence.
    + (* a task *)
      specialize (Hheld (WPut v) Hi). simpl in Hheld.
      apply is_task_None in Hv.
      constructor; simpl; rewrite ?app_nil_r; try done.
      * rewrite Hperm, (queued_cons_task v) by done.
        rewrite <- Hheld. simpl. by rewrite <- Permutation_middle.
      * phase_same m.
      * intros Hm. destruct (Hquiet Hm) as [Hq1 Hq2].
        apply Forall_cons in Hq1 as [_ Hq1]. split; [done|].
        by apply Forall_insert.
  - (* render(task); result_queue.put(result) *)
    injection Hstep as <-. specialize (Hheld WGet Hi). simpl in Hheld.
    constructor; simpl;
      rewrite ?updates_app, ?received_app, ?rendered_app; simpl;
      rewrite ?app_nil_r; try done.
    + rewrite Hperm, Hheld. simpl.
      rewrite <- !app_assoc. simpl.
      rewrite <- !Permutation_middle. done.
    + by rewrite Hfifo, <- app_assoc.
    + by rewrite map_app, Hrend.
    + phase_same m.
    + intros Hm. destruct (Hquiet Hm) as [Hq1 Hq2]. split; [done|].
      by apply Forall_insert.
  - done.
Qed.

(** The invariant holds along every schedule. *)
Lemma inv_step (a : actor) (s s' : state St) :
  I s -> step a s = Some s' -> I s'.
Proof.
  destruct a as [| |i].
  - apply inv_main_step.
  - apply inv_producer_step.
  - apply inv_worker_step.
Qed.

Lemma inv_exec (sched : list actor) (s s' : state St) :
  I s -> run_from sched s = Some s' -> I s'.
Proof.
  revert s. induction sched as [|a sched IH]; intros s Hs Hrun; simpl in Hrun.
  - by injection Hrun as <-.
  - destruct (step a s) as [s1|] eqn:Hstep; [|done]. simpl in Hrun.
    eapply IH; [|exact Hrun]. by eapply inv_step.
Qed.

(** *** Termination and progress *)

(** Every step brings the system closer to its end. *)
Lemma measure_step (a : actor) (s s' : state St) :
  step a s = Some s' -> (size s' < size s)%nat.
Proof.
  destruct s as [m p ws tq rq c tr]. destruct a as [| |i]; simpl.
  - unfold main_step; simpl.
    destruct m as [|[|k]|[|n]|[|k]|]; try destruct rq as [|r rq];
      intros Hstep; try done; injection Hstep as <-;
      unfold measure; simpl;
      rewrite ?length_app, ?sum_list_with_app; simpl; lia.
  - unfold producer_step; simpl.
    destruct p as [|[|task rest]]; intros Hstep; try done.
    injection Hstep as <-. unfold measure; simpl.
    rewrite ?length_app; simpl; lia.
  - destruct (ws !! i) as [w|] eqn:Hi; [|done]. simpl.
    pose proof (weight_insert ws i w) as Hw.
    destruct w as [| |task|]; simpl.
    + intros [= <-]. specialize (Hw WGet Hi). unfold measure; simpl in *.
      rewrite length_insert. lia.
    + destruct tq as [|v tq]; [done|]. simpl.
      destruct (is_None v); intros [= <-].
      * specialize (Hw WExited Hi). unfold measure; simpl in *.
        rewrite length_insert. lia.
      * specialize (Hw (WPut v) Hi). unfold measure; simpl in *.
        rewrite length_insert. lia.
    + intros [= <-]. specialize (Hw WGet Hi). unfold measure; simpl in *.
      rewrite length_insert, length_app. simpl. lia.
    + done.
Qed.


Hypothesis processes_valid : 1 <= _processes self.

(** Until [run] returns, some process can take a step: the system does not
    deadlock. *)
Lemma progress (s : state St) :
  I s -> returned s = false -> exists a s', step a s = Some s'.
Proof.
  intros [Hperm Hfifo Hrend Hcaller Hunsent Hphase Hquiet] Hret.
  unfold phase_ok in Hphase. unfold returned in Hret.
  destruct s as [m p ws tq rq c tr]. simpl in *.
  destruct m as [|[|k]|[|n]|[|k]|]; try done;
    try (exists AMain; simpl; unfold main_step; simpl; by eexists).
  (* the caller waits for a result *)
  destruct rq as [|r rq];
    [|exists AMain; simpl; unfold main_step; simpl; by eexists].
  destruct Hphase as (Hp & Hw & Hu).
  destruct (Hquiet eq_refl) as [Hq1 Hq2].
  destruct p as [|[|task rest]]; [done| |].
  2:{ exists AProducer. simpl. unfold producer_step. simpl. by eexists. }
  destruct (held ws) as [|t hs] eqn:Hheld.
  2:{ destruct (held_nonempty ws) as (i & t' & Hi); [by rewrite Hheld|].
      exists (AWorker i). simpl. rewrite Hi. simpl. by eexists. }
  (* no task unsent, none held: one waits on the task queue *)
  destruct tq as [|v tq].
  { apply Permutation_length in Hperm.
    rewrite length_map, length_app in Hperm. simpl in Hperm. lia. }
  destruct ws as [|w ws]; [simpl in Hw; lia|].
  apply Forall_cons in Hq1 as [Hv%is_task_None _].
  apply Forall_cons in Hq2 as [Hw0 _].
  exists (AWorker 0). simpl.
  destruct w; simpl; rewrite ?Hv; try done; by eexists.
Qed.

(** From every reachable state some schedule lets [run] return. *)
Lemma completes (n : nat) (s : state St) :
  (size s <= n)%nat -> I s ->
  exists sched s', run_from sched s = Some s' /\ returned s' = true.
Proof.
  revert s. induction n as [|n IH]; intros s Hn Hs.
  - destruct (returned s) eqn:Hret; [by exists [], s|].
    destruct (progress s Hs Hret) as (a & s1 & Hstep).
    apply measure_step in Hstep. lia.
  - destruct (returned s) eqn:Hret; [by exists [], s|].
    destruct (progress s Hs Hret) as (a & s1 & Hstep).
    destruct (IH s1) as (sched & s' & Hrun & Hret').
    + apply measure_step in Hstep. lia.
    + by eapply inv_step.
    + exists (a :: sched), s'. simpl. rewrite Hstep. by split.
Qed.

End Run.

(** *** The theorems on [run] *)


Lemma example_tasks_legal : Forall is_task example_tasks.
Proof. repeat constructor; discriminate. Qed.





(** C4, as amended: the shutdown signal is [None], and it is apart from
    the tasks of a run only when the caller submits no [None].  A worker at
    its [get] that finds the signal at the head of the task queue takes it
    and leaves its loop, and a worker leaves its loop in no other way; any
    other value it gets is rendered and the result is put on the result
    queue, after which the worker is back at its [get]; on an empty queue
    it waits.  A worker that has left takes no further step.  The signal is
    what the shutdown loop of [run] puts on the task queue, and in a run
    over tasks none of which is [None], until that loop begins, no signal
    is on the task queue and no worker has left. *)
Theorem worker_stops_on_signal_only (render : render_fn)
    (render_args : args) (render_kwargs : kwargs) :
  ShutdownSignal = PyNone /\
  (forall tq rq,
     worker_step render render_args render_kwargs WGet
       (ShutdownSignal :: tq) rq
     = Some (WExited, tq, rq, [])) /\
  (forall (St : Type) (s : state St) (i : nat) (tq : list pyobj)
          (self : engine) (tasks : list pyobj) (update : update_fn St)
          (update_args : args) (update_kwargs : kwargs),
     workers s !! i = Some WGet ->
     task_queue s = ShutdownSignal :: tq ->
     exec_step self tasks render update render_args render_kwargs
       update_args update_kwargs (AWorker i) s
     = Some (State (main s) (producer s) (<[i:=WExited]> (workers s)) tq
               (result_queue s) (caller s) (trace s))) /\
  (forall w tq rq w' tq' rq' evs,
     worker_step render render_args render_kwargs w tq rq
     = Some (w', tq', rq', evs) ->
     (w' = WExited <-> w = WGet /\ tq = ShutdownSignal :: tq')) /\
  (forall v tq rq,
     v <> ShutdownSignal ->
     worker_step render render_args render_kwargs WGet (v :: tq) rq
     = Some (WPut v, tq, rq, []) /\
     worker_step render render_args render_kwargs (WPut v) tq rq
     = Some (WGet, tq, rq ++ [render v render_args render_kwargs],
             [EvRender v; EvResult (render v render_args render_kwargs)])) /\
  (forall rq,
     worker_step render render_args render_kwargs WGet [] rq = None) /\
  (forall tq rq,
     worker_step render render_args render_kwargs WExited tq rq = None) /\
  (forall (St : Type) (self : engine) (tasks : list pyobj)
          (update : update_fn St) (update_args : args)
          (update_kwargs : kwargs) (s : state St) (k : nat),
     main s = MShutdown (Datatypes.S k) ->
     exists s',
       main_step self tasks update update_args update_kwargs s = Some s' /\
       main s' = MShutdown k /\
       task_queue s' = task_queue s ++ [ShutdownSignal]) /\
  (forall (St : Type) (self : engine) (tasks : list pyobj)
          (update : update_fn St) (update_args : args)
          (update_kwargs : kwargs) (caller0 : St)
          (sched : list actor) (s : state St),
     Forall (fun task => task <> PyNone) tasks ->
     exec self tasks render update render_args render_kwargs
       update_args update_kwargs sched (init_state caller0) = Some s ->
     before_shutdown (main s) = true ->
     Forall (fun v => v <> ShutdownSignal) (task_queue s) /\
     Forall (fun w => w <> WExited) (workers s)).
Proof.
  split; [reflexivity|]. split; [reflexivity|].
  split; [|split; [|split; [|split; [|split; [|split]]]]].
  - intros St s i tq self tasks update update_args update_kwargs Hw Htq.
    unfold exec_step. rewrite Hw, Htq. simpl. by rewrite app_nil_r.
  - intros w tq rq w' tq' rq' evs Hstep.
    destruct w as [| |task|]; simpl in Hstep.
    + injection Hstep as <- <- <- <-. split; [done|]. by intros [? _].
    + destruct tq as [|v tq]; [done|].
      destruct (is_None v) eqn:Hv; injection Hstep as <- <- <- <-.
      * destruct v; try done; by split.
      * split; [done|]. intros [_ [= ->]]. done.
    + injection Hstep as <- <- <- <-. split; [done|]. by intros [? _].
    + done.
  - intros v tq rq Hv%is_task_None. simpl. by rewrite Hv.
  - done.
  - done.
  - intros St self tasks update update_args update_kwargs s k Hm.
    unfold main_step. rewrite Hm. eexists. by split.
  - intros St self tasks update update_args update_kwargs caller0 sched s
      Htasks Hrun Hm.
    assert (Hs : inv self tasks render update render_args render_kwargs
                   update_args update_kwargs caller0 s).
    { eapply inv_exec; [by apply inv_init|exact Hrun]. }
    by apply (inv_quiet _ _ _ _ _ _ _ _ _ _ Hs).
Qed.

(** [worker_stops_on_signal_only], on the example run stopped while the
    caller still waits for results: two tasks wait on the task queue,
    neither is the signal, and both workers are in their loops. *)
Lemma worker_stops_on_signal_only_witness :
  Forall (fun v => v <> ShutdownSignal) [PyInt 2; PyInt 3] /\
  Forall (fun w => w <> WExited) [WPut (PyInt 0); WPut (PyInt 1)].
Proof.
  refine (proj2 (proj2 (proj2 (proj2 (proj2 (proj2 (proj2 (proj2
            (worker_stops_on_signal_only square [] []))))))))
            Z example_engine example_tasks add_total [] [] 0
            (take 12 example_schedule)
            (State (MConsume 4) (PPut []) [WPut (PyInt 0); WPut (PyInt 1)]
               [PyInt 2; PyInt 3] [] 0 [])
            _ _ eq_refl).
  - by repeat constructor.
  - vm_compute. reflexivity.
Defined.

(** C4, as written, fails on the task list [[None]], which [run] and
    [_producer] take like any other: the task is put on the task queue,
    where it is the signal; the only worker takes it and leaves without
    rendering it, before the shutdown loop of [run] has begun. *)
Lemma none_task_taken_for_signal :
  exec {| _processes := 1 |} [PyNone] square add_total [] [] [] []
    [AMain; AMain; AMain; AProducer] (init_state 0)
  = Some (State (MConsume 1) (PPut []) [WSeed] [ShutdownSignal] [] 0 []) /\
  exec {| _processes := 1 |} [PyNone] square add_total [] [] [] []
    none_schedule (init_state 0) = Some none_final /\
  workers none_final = [WExited] /\
  rendered (trace none_final) = [] /\
  before_shutdown (main none_final) = true /\
  ~ (forall (tasks : list pyobj) (sched : list actor) (s : state Z),
       exec {| _processes := 1 |} tasks square add_total [] [] [] []
         sched (init_state 0) = Some s ->
       before_shutdown (main s) = true ->
       Forall (fun v => v <> ShutdownSignal) (task_queue s) /\
       Forall (fun w => w <> WExited) (workers s)).
Proof.
  repeat (split; [reflexivity|]).
  intros Hall.
  destruct (Hall [PyNone] none_schedule none_final eq_refl eq_refl)
    as [_ Hleft].
  by inversion Hleft.
Qed.

End PoolSpec.

(** ** SerialEngine: how runs compose *)

Module SerialEngineFacts.

(** X1: running the serial engine on [tasks1 ++ tasks2] is running it on
    [tasks1] and then, from the state this leaves, on [tasks2]: the events
    follow one another and the caller's states chain.  On no task at all
    it does nothing. *)
Theorem run_app {S : Type} (render : render_fn) (update : update_fn S)
    (render_args update_args : args) (render_kwargs update_kwargs : kwargs)
    (tasks1 tasks2 : list pyobj) (caller : S) :
  let run := SerialEngine.run render update render_args render_kwargs
               update_args update_kwargs in
  run (tasks1 ++ tasks2) caller
  = (fst (run tasks2 (fst (run tasks1 caller))),
     snd (run tasks1 caller) ++ snd (run tasks2 (fst (run tasks1 caller))))
  /\ run [] caller = (caller, []).
Proof.
  intros run. split; [|reflexivity].
  unfold run, SerialEngine.run.
  rewrite !SerialEngineSpec.run_loop_spec. simpl.
  by rewrite fold_left_app, flat_map_app.
Qed.

End SerialEngineFacts.

(** ** MulticoreEngine: more on the [processes] property *)

Module ProcessesFacts.

Import MulticoreEngine Pool.

(** An assignment either succeeds or leaves the engine as it was. *)
Lemma set_processes_cases (cpu_count : Z) (v : pyobj) (self : engine) :
  (exists self', set_processes cpu_count v self = (self', Ok tt)) \/
  (exists e, set_processes cpu_count v self = (self, Raise e) /\
             (e = ValueError zero_msg \/ int v = Raise e)).
Proof.
  unfold set_processes. destruct (is_None v); [left; by eexists|].
  destruct (int v) as [z|e] eqn:Hint.
  - destruct (z <=? 0); [right|left]; eexists; [split|]; eauto.
  - right. eexists. split; eauto.
Qed.

(** X2: an assignment to [processes] that raises, for whatever reason,
    leaves the engine as it was, and the exception is either the
    [ValueError] about a count not greater than zero or the exception
    [int] raised on the value. *)
Theorem failed_assignment_keeps_engine (cpu_count : Z) (v : pyobj)
    (self : engine) (e : exn) :
  snd (set_processes cpu_count v self) = Raise e ->
  fst (set_processes cpu_count v self) = self /\
  worker_count (fst (set_processes cpu_count v self)) = worker_count self /\
  (e = ValueError zero_msg \/ int v = Raise e).
Proof.
  intros He.
  destruct (set_processes_cases cpu_count v self)
    as [(self' & Hs)|(e' & Hs & Hcase)]; rewrite Hs in *; simpl in *.
  - discriminate.
  - injection He as ->. by repeat split.
Qed.

Lemma failed_assignment_keeps_engine_witness :
  fst (set_processes 8 (PyTuple [PyInt 4]) {| _processes := 4 |})
  = {| _processes := 4 |}.
Proof.
  refine (proj1 (failed_assignment_keeps_engine 8 (PyTuple [PyInt 4])
                   {| _processes := 4 |} _ _)).
  reflexivity.
Defined.

(** X3: an engine out of [__init__] keeps a worker count of at least one
    through any series of later assignments to [processes], failed ones
    included, on hosts that report at least one processor. *)
Theorem assignments_keep_valid (cpu_count : Z) (processes : pyobj)
    (self : engine) (assignments : list (Z * pyobj)) :
  1 <= cpu_count ->
  Forall (fun a => 1 <= fst a) assignments ->
  init cpu_count processes = Ok self ->
  1 <= worker_count (assign_all assignments self).
Proof.
  intros Hcpu Hall Hinit.
  apply (ProcessesSpec.init_valid _ _ _ Hcpu) in Hinit.
  clear Hcpu. revert self Hinit.
  induction Hall as [|[cpu v] rest Hcpu _ IH]; intros self Hself; [done|].
  simpl in *. apply IH.
  destruct (set_processes_cases cpu v self)
    as [(self' & Hs)|(e & Hs & _)]; rewrite Hs; simpl; [|done].
  eapply ProcessesSpec.set_processes_valid; [exact Hcpu|exact Hs].
Qed.

Lemma assignments_keep_valid_witness :
  1 <= worker_count
         (assign_all [(8, PyInt 0); (8, PyInt 3); (2, PyNone); (2, PyBool false)]
            {| _processes := 8 |}).
Proof.
  apply (assignments_keep_valid 8 PyNone).
  - lia.
  - repeat constructor; simpl; lia.
  - reflexivity.
Defined.

(** X4: a finite float [m * 2^e] is accepted by the setter exactly when it
    is at least one, and what is then stored is its integer part: the
    count [k] with [k <= m * 2^e < k + 1], here with the power of two of a
    negative exponent moved to the other side. *)
Theorem float_accepted_from_one (cpu_count : Z) (self : engine) (m e : Z) :
  let out := set_processes cpu_count (PyFloat (FFinite m e)) self in
  let num := m * 2 ^ Z.max 0 e in
  let den := 2 ^ Z.max 0 (- e) in
  (snd out = Ok tt <-> den <= num) /\
  (snd out = Ok tt ->
   worker_count (fst out) * den <= num < (worker_count (fst out) + 1) * den).
Proof.
  intros out num den. unfold out.
  rewrite (ProcessesSpec.set_converted _ _ _ (float_trunc m e)) by done.
  unfold float_trunc, num, den.
  destruct (Z.leb_spec 0 e) as [He|He].
  - rewrite (Z.max_r 0 e), (Z.max_l 0 (- e)) by lia. simpl (2 ^ 0).
    destruct (Z.leb_spec (m * 2 ^ e) 0); simpl; split;
      try (split; intros; first [done | lia]); intros; first [done | lia].
  - rewrite (Z.max_l 0 e), (Z.max_r 0 (- e)) by lia.
    rewrite Z.pow_0_r, Z.mul_1_r.
    assert (Hd : 0 < 2 ^ (- e)) by (apply Z.pow_pos_nonneg; lia).
    destruct (Z.leb_spec (m ÷ 2 ^ (- e)) 0) as [Hq|Hq]; simpl.
    + split; [|done]. split; [done|]. intros Hm. exfalso.
      rewrite Z.quot_div_nonneg in Hq by lia.
      assert (1 <= m `div` 2 ^ (- e)); [|lia].
      apply Z.div_le_lower_bound; lia.
    + assert (Hm : 0 <= m).
      { destruct (Z.le_gt_cases 0 m) as [|Hneg]; [done|].
        pose proof (Z.quot_opp_l m (2 ^ (- e))) as Ho.
        assert (0 <= (- m) ÷ 2 ^ (- e)) by (apply Z.quot_pos; lia). lia. }
      rewrite Z.quot_div_nonneg in * by lia.
      pose proof (Z.mul_div_le m (2 ^ (- e)) Hd).
      pose proof (Z.mul_succ_div_gt m (2 ^ (- e)) Hd).
      split; [split; [intros _|done]|intros _]; nia.
Qed.

End ProcessesFacts.

(** ** MulticoreEngine: more on [run] *)

Module PoolFacts.

Import MulticoreEngine Pool PoolSpec.

(** Case analysis on one step of the system, in the order: the seven steps
    of the caller, the producer's [put], then [random.seed()], the [get] of
    the signal, the [get] of a task and the [put] of a result by worker [i]. *)
Ltac step_cases s a Hstep :=
  let m := fresh "m" in let p := fresh "p" in let ws := fresh "ws" in
  let tq := fresh "tq" in let rq := fresh "rq" in let c := fresh "c" in
  let tr := fresh "tr" in let i := fresh "i" in let w := fresh "w" in
  let Hi := fresh "Hi" in let Hv := fresh "Hv" in
  destruct s as [m p ws tq rq c tr]; destruct a as [| |i]; simpl in Hstep;
  [ unfold main_step in Hstep; simpl in Hstep;
    destruct m as [|[|?k]|[|?n]|[|?k]|];
    [ | | | | destruct rq as [|?r ?rq]; [discriminate Hstep|] | | | discriminate Hstep];
    injection Hstep as <-
  | unfold producer_step in Hstep; simpl in Hstep;
    destruct p as [|[|?task ?rest]]; try discriminate Hstep;
    injection Hstep as <-
  | destruct (ws !! i) as [w|] eqn:Hi; [|discriminate Hstep];
    simpl in Hstep;
    destruct w as [| |?task|];
    [ | destruct tq as [|?v ?tq]; [discriminate Hstep|]; simpl in Hstep;
        destruct (is_None v) eqn:Hv
      | | discriminate Hstep ];
    injection Hstep as <- ].

Lemma signals_app (tq1 tq2 : list pyobj) :
  signals (tq1 ++ tq2) = (signals tq1 + signals tq2)%nat.
Proof. apply sum_list_with_app. Qed.

Lemma signals_tasks (tq : list pyobj) :
  Forall is_task tq -> signals tq = 0%nat.
Proof.
  induction 1 as [|v tq Hv%is_task_None _ IH]; [done|].
  unfold signals in *. simpl. by rewrite Hv.
Qed.

Lemma exited_none (ws : list worker_pc) :
  Forall (fun w => w <> WExited) ws -> exited ws = 0%nat.
Proof.
  induction 1 as [|w ws Hw _ IH]; [done|].
  unfold exited in *. simpl. by destruct w.
Qed.

Lemma exited_all (ws : list worker_pc) :
  exited ws = length ws -> Forall (fun w => w = WExited) ws.
Proof.
  assert (Hle : forall l, (exited l <= length l)%nat).
  { induction l as [|w l IH]; [done|].
    unfold exited in *. simpl. destruct w; lia. }
  induction ws as [|w ws IH]; [done|].
  intros H. specialize (Hle ws). unfold exited in *. simpl in H.
  destruct w; try lia. constructor; [done|]. apply IH. lia.
Qed.

Lemma exited_insert (ws : list worker_pc) (i : nat) (w w' : worker_pc) :
  ws !! i = Some w ->
  (exited (<[i:=w']> ws) + exited [w] = exited ws + exited [w'])%nat.
Proof.
  revert i. induction ws as [|w0 ws IH]; intros [|i] Hi; try done.
  - injection Hi as ->. unfold exited. simpl. lia.
  - simpl in Hi. specialize (IH i Hi). unfold exited in *. simpl in *. lia.
Qed.

Lemma length_queue (tq : list pyobj) :
  length tq = (signals tq + length (queued tq))%nat.
Proof.
  induction tq as [|v tq IH]; [done|].
  change (signals (v :: tq))
    with ((if is_None v then 1 else 0) + signals tq)%nat.
  destruct (is_None v) eqn:Hv.
  - rewrite queued_cons_signal by done. simpl. lia.
  - rewrite queued_cons_task by (by apply is_task_None). simpl. lia.
Qed.

Section Run.
Context {St : Type}.
Variable self : engine.
Variable tasks : list pyobj.
Variables (render : render_fn) (update : update_fn St).
Variables (render_args : args) (render_kwargs : kwargs).
Variables (update_args : args) (update_kwargs : kwargs).
Variable caller0 : St.

Local Abbreviation rnd := (fun task => render task render_args render_kwargs).
Local Abbreviation step :=
  (exec_step self tasks render update render_args render_kwargs
     update_args update_kwargs).
Local Abbreviation run_from :=
  (exec self tasks render update render_args render_kwargs
     update_args update_kwargs).
Local Abbreviation I :=
  (inv self tasks render update render_args render_kwargs
     update_args update_kwargs caller0).

Hypothesis tasks_legal : Forall is_task tasks.

(** The signals are accounted for along every step. *)
Lemma signals_step (a : actor) (s s' : state St) :
  I s -> signals_ok s -> step a s = Some s' -> signals_ok s'.
Proof.
  intros [_ _ _ _ Hunsent _ Hquiet] Hsig Hstep. unfold signals_ok in *.
  step_cases s a Hstep; cbn [main task_queue workers producer] in *;
    rewrite ?signals_app, ?length_insert;
    change (signals [ShutdownSignal]) with 1%nat;
    try match goal with
    | Hi : _ !! _ = Some ?w |- context [<[_:=?w']> _] =>
        pose proof (exited_insert _ _ _ w' Hi) as He;
        change (exited [w]) with 0%nat in He;
        first [change (exited [w']) with 0%nat in He
              |change (exited [w']) with 1%nat in He]
    end;
    try match type of Hsig with
    | context [signals (?v :: ?tq)] =>
        change (signals (v :: tq))
          with ((if is_None v then 1 else 0) + signals tq)%nat in Hsig;
        rewrite Hv in Hsig
    end;
    try done.
  - (* p.start() *)
    destruct Hsig as [-> Hex]. split; [done|].
    unfold exited in *. rewrite sum_list_with_app, Hex. done.
  - (* the shutdown loop begins *)
    destruct Hsig as [-> ->]. lia.
  - (* the shutdown loop ends *)
    lia.
  - (* task_queue.put(None) *)
    lia.
  - (* the producer puts a task *)
    apply Forall_cons in Hunsent as [Htask%is_task_None _].
    change (signals [task]) with ((if is_None task then 1 else 0) + 0)%nat.
    rewrite Htask. destruct m; simpl in *; lia.
  - destruct m; simpl in *; lia.
  - destruct m; simpl in *; lia.
  - destruct m; simpl in *; lia.
  - destruct m; simpl in *; lia.
Qed.

Lemma signals_exec (sched : list actor) (s s' : state St) :
  I s -> signals_ok s -> run_from sched s = Some s' -> signals_ok s'.
Proof.
  revert s. induction sched as [|a sched IH]; intros s Hs Hsig Hrun;
    simpl in Hrun.
  - by injection Hrun as <-.
  - destruct (step a s) as [s1|] eqn:Hstep; [|done]. simpl in Hrun.
    eapply IH; [| |exact Hrun].
    + by eapply inv_step.
    + by eapply signals_step.
Qed.

(** Every task stays accounted for, once, along every step. *)
Lemma rendered_step (a : actor) (s s' : state St) :
  I s -> rendered_once tasks s -> step a s = Some s' ->
  rendered_once tasks s'.
Proof.
  intros [_ _ _ _ Hunsent Hphase _] Hone Hstep.
  unfold rendered_once, phase_ok in *.
  step_cases s a Hstep;
    cbn [main task_queue workers producer trace result_queue] in *;
    rewrite ?rendered_app, ?queued_app; simpl; rewrite ?app_nil_r;
    try match goal with
    | Hi : _ !! _ = Some _ |- context [<[_:=?w']> _] =>
        pose proof (held_insert _ _ _ w' Hi) as Hheld; simpl in Hheld
    end;
    try done.
  - (* producer.start() *)
    destruct Hphase as (-> & _). done.
  - (* p.start() *)
    unfold held. rewrite omap_app. simpl. by rewrite app_nil_r.
  - (* the producer puts a task *)
    simpl in Hunsent. apply Forall_cons in Hunsent as [Htask%is_task_None _].
    rewrite Htask. by rewrite <- (app_assoc (queued tq)).
  - (* random.seed() *)
    by rewrite <- Hheld.
  - (* the signal *)
    rewrite <- Hheld. by rewrite (queued_cons_signal v) in Hone.
  - (* a task *)
    apply is_task_None in Hv. rewrite (queued_cons_task v) in Hone by done.
    etransitivity; [exact Hone|]. rewrite <- Hheld.
    apply Permutation_app_head. simpl. symmetry. apply Permutation_middle.
  - (* the result *)
    etransitivity; [exact Hone|]. rewrite Hheld, <- app_assoc.
    apply Permutation_app_head. done.
Qed.

Lemma rendered_exec (sched : list actor) (s s' : state St) :
  I s -> rendered_once tasks s -> run_from sched s = Some s' ->
  rendered_once tasks s'.
Proof.
  revert s. induction sched as [|a sched IH]; intros s Hs Hone Hrun;
    simpl in Hrun.
  - by injection Hrun as <-.
  - destruct (step a s) as [s1|] eqn:Hstep; [|done]. simpl in Hrun.
    eapply IH; [| |exact Hrun].
    + by eapply inv_step.
    + by eapply rendered_step.
Qed.

Lemma rendered_once_init : rendered_once tasks (init_state caller0).
Proof. unfold rendered_once. simpl. done. Qed.

Lemma signals_ok_init : signals_ok (init_state caller0).
Proof. by split. Qed.

(** Once [run] has returned, no task is left anywhere and no result waits. *)
Lemma returned_nothing_left (s : state St) :
  I s -> returned s = true ->
  result_queue s = [] /\
  held (workers s) ++ queued (task_queue s) ++ unsent tasks (producer s) = [].
Proof.
  intros [Hperm _ _ _ _ Hphase _] Hret.
  pose proof (Permutation_length Hperm) as Hlen.
  rewrite length_map, !length_app, length_map in Hlen.
  unfold returned in Hret. unfold phase_ok in Hphase.
  destruct (main s); try done. destruct Hphase as (_ & _ & Hu).
  split; apply length_zero_iff_nil; lia.
Qed.

(** Whether some process can move is decidable. *)
Lemma quiescent_dec (s : state St) :
  (exists a s', step a s = Some s') \/
  quiescent self tasks render update render_args render_kwargs
    update_args update_kwargs s.
Proof.
  destruct (step AMain s) as [s1|] eqn:Hmain; [left; eauto|].
  destruct (step AProducer s) as [s1|] eqn:Hprod; [left; eauto|].
  assert (Hws : forall n,
             (exists i s', step (AWorker i) s = Some s') \/
             (forall i, (i < n)%nat -> step (AWorker i) s = None)).
  { induction n as [|n [IH|IH]]; [right; intros; lia|by left|].
    destruct (step (AWorker n) s) as [s1|] eqn:Hn; [left; eauto|].
    right. intros i Hi. destruct (decide (i = n)) as [->|]; [done|].
    apply IH. lia. }
  destruct (Hws (length (workers s))) as [(i & s1 & Hi)|Hnone];
    [left; eauto|].
  right. intros [| |i]; try done.
  destruct (decide (i < length (workers s))%nat) as [Hlt|Hge];
    [by apply Hnone|].
  simpl. rewrite (lookup_ge_None_2 (workers s) i) by lia. done.
Qed.

(** Every state is some steps away from one where nothing moves. *)
Lemma reaches_quiescence (n : nat) (s : state St) :
  (measure self tasks s <= n)%nat ->
  exists sched s',
    run_from sched s = Some s' /\
    quiescent self tasks render update render_args render_kwargs
      update_args update_kwargs s'.
Proof.
  revert s. induction n as [|n IH]; intros s Hn;
    (destruct (quiescent_dec s) as [(a & s1 & Hstep)|Hq];
     [|by exists [], s]);
    pose proof (measure_step _ _ _ _ _ _ _ _ _ _ _ Hstep) as Hlt; [lia|].
  destruct (IH s1) as (sched & s' & Hrun & Hq); [lia|].
  exists (a :: sched), s'. simpl. rewrite Hstep. by split.
Qed.

End Run.

(** *** A single worker *)

Section OneWorker.
Context {St : Type}.
Variable self : engine.
Variable tasks : list pyobj.
Variables (render : render_fn) (update : update_fn St).
Variables (render_args : args) (render_kwargs : kwargs).
Variables (update_args : args) (update_kwargs : kwargs).
Variable caller0 : St.

Local Abbreviation step :=
  (exec_step self tasks render update render_args render_kwargs
     update_args update_kwargs).
Local Abbreviation run_from :=
  (exec self tasks render update render_args render_kwargs
     update_args update_kwargs).
Local Abbreviation I :=
  (inv self tasks render update render_args render_kwargs
     update_args update_kwargs caller0).

Hypothesis one_worker : _processes self = 1.

Lemma one_worker_only (s : state St) (i : nat) (w : worker_pc) :
  I s -> workers s !! i = Some w -> workers s = [w] /\ i = O.
Proof.
  intros [_ _ _ _ _ Hphase _] Hi. unfold phase_ok in Hphase.
  assert (Hlen : (length (workers s) <= 1)%nat).
  { rewrite one_worker in Hphase. change (Z.to_nat 1) with 1%nat in Hphase.
    destruct (main s); [destruct Hphase as (_ & -> & _); simpl; lia|..];
      destruct Hphase as (_ & Hw & _); lia. }
  destruct (workers s) as [|w0 [|w1 ws]]; simpl in *; [done| |lia].
  destruct i as [|i]; simpl in Hi; [|done]. by injection Hi as ->.
Qed.

(** With one worker the tasks keep their order along every step. *)
Lemma in_order_step (a : actor) (s s' : state St) :
  I s -> in_order tasks s -> step a s = Some s' -> in_order tasks s'.
Proof.
  intros Hs Hord Hstep.
  pose proof (inv_unsent _ _ _ _ _ _ _ _ _ _ Hs) as Hunsent.
  pose proof (inv_phase _ _ _ _ _ _ _ _ _ _ Hs) as Hphase.
  pose proof (one_worker_only s) as Hone.
  unfold in_order, phase_ok in *.
  step_cases s a Hstep;
    cbn [main task_queue workers producer trace result_queue] in *;
    rewrite ?rendered_app, ?queued_app; simpl; rewrite ?app_nil_r;
    try match goal with
    | Hi : _ !! _ = Some _ |- _ =>
        destruct (Hone _ _ Hs Hi) as [-> ->]; simpl
    end;
    try done.
  - (* producer.start() *)
    destruct Hphase as (-> & _). done.
  - (* p.start() *)
    unfold held. rewrite omap_app. simpl. by rewrite app_nil_r.
  - (* the producer puts a task *)
    simpl in Hunsent. apply Forall_cons in Hunsent as [Htask%is_task_None _].
    rewrite Htask. by rewrite <- (app_assoc (queued tq)).
  - (* the signal *)
    by rewrite (queued_cons_signal v) in Hord.
  - (* a task *)
    apply is_task_None in Hv. by rewrite (queued_cons_task v) in Hord.
  - (* the result *)
    by rewrite <- app_assoc.
Qed.

Lemma in_order_exec (sched : list actor) (s s' : state St) :
  I s -> in_order tasks s -> run_from sched s = Some s' -> in_order tasks s'.
Proof.
  revert s. induction sched as [|a sched IH]; intros s Hs Hord Hrun;
    simpl in Hrun.
  - by injection Hrun as <-.
  - destruct (step a s) as [s1|] eqn:Hstep; [|done]. simpl in Hrun.
    eapply IH; [| |exact Hrun].
    + by eapply inv_step.
    + by eapply in_order_step.
Qed.

End OneWorker.

(** Events of none of the three kinds do not exist. *)
Lemma trace_empty (tr : list event) :
  updates tr = [] -> received tr = [] -> rendered tr = [] -> tr = [].
Proof.
  destruct tr as [|[t|r|r] tr]; [done|..]; by unfold updates, received, rendered.
Qed.

(** X5: in a run of the pool over tasks, under every schedule, each task is
    in exactly one place: given to [render], held by a worker, waiting on
    the task queue or not yet put there.  So no task is rendered more
    often than it was submitted, nothing but a task is rendered, and when
    [run] has returned each task has been rendered exactly once. *)
Theorem tasks_rendered_once {St : Type} (self : engine) (tasks : list pyobj)
    (render : render_fn) (update : update_fn St)
    (render_args update_args : args) (render_kwargs update_kwargs : kwargs)
    (caller0 : St) (sched : list actor) (s : state St) :
  Forall is_task tasks ->
  exec self tasks render update render_args render_kwargs
    update_args update_kwargs sched (init_state caller0) = Some s ->
  Permutation tasks
    (rendered (trace s) ++ held (workers s) ++ queued (task_queue s)
     ++ unsent tasks (producer s)) /\
  Forall is_task (rendered (trace s)) /\
  (returned s = true -> Permutation tasks (rendered (trace s))).
Proof.
  intros Htasks Hrun.
  assert (Hs : inv self tasks render update render_args render_kwargs
                 update_args update_kwargs caller0 s).
  { eapply inv_exec; [by apply inv_init|exact Hrun]. }
  assert (Hone : rendered_once tasks s).
  { eapply rendered_exec; [by apply inv_init| |exact Hrun].
    apply rendered_once_init. }
  split; [exact Hone|]. split.
  - rewrite Forall_forall in *. intros t Ht. apply Htasks.
    unfold rendered_once in Hone. rewrite Hone. apply elem_of_app. by left.
  - intros Hret.
    destruct (returned_nothing_left _ _ _ _ _ _ _ _ _ _ Hs Hret)
      as [_ Hrest].
    unfold rendered_once in Hone. by rewrite Hrest, app_nil_r in Hone.
Qed.

Lemma tasks_rendered_once_witness :
  Permutation example_tasks (rendered (trace example_final)).
Proof.
  assert (Hrun : exec example_engine example_tasks square add_total
                   [] [] [] [] example_schedule (init_state 0)
                 = Some example_final) by (vm_compute; reflexivity).
  pose proof (tasks_rendered_once example_engine example_tasks square
                add_total [] [] [] [] 0 example_schedule example_final
                example_tasks_legal Hrun) as (_ & _ & H).
  exact (H eq_refl).
Defined.



(** X7: the shutdown reaches every worker.  In a run over tasks with a
    valid number of workers, when no process can move any more, [run] has
    returned, every worker has left its loop, the producer has put all its
    tasks and both queues are empty; and from the start such an end is
    reached.  Once [run] has returned there is, at any time, one signal on
    the task queue for each worker that has not left. *)
Theorem shutdown_reaches_every_worker {St : Type} (self : engine)
    (tasks : list pyobj) (render : render_fn) (update : update_fn St)
    (render_args update_args : args) (render_kwargs update_kwargs : kwargs)
    (caller0 : St) :
  Forall is_task tasks ->
  1 <= worker_count self ->
  (forall sched s,
     exec self tasks render update render_args render_kwargs
       update_args update_kwargs sched (init_state caller0) = Some s ->
     (returned s = true ->
      (signals (task_queue s) + exited (workers s))%nat
      = length (workers s)) /\
     (quiescent self tasks render update render_args render_kwargs
        update_args update_kwargs s ->
      returned s = true /\
      Forall (fun w => w = WExited) (workers s) /\
      producer s = PPut [] /\
      task_queue s = [] /\ result_queue s = [])) /\
  (exists sched s,
     exec self tasks render update render_args render_kwargs
       update_args update_kwargs sched (init_state caller0) = Some s /\
     quiescent self tasks render update render_args render_kwargs
       update_args update_kwargs s).
Proof.
  intros Htasks Hw. split.
  2:{ eapply reaches_quiescence. reflexivity. }
  intros sched s Hrun.
  assert (Hs : inv self tasks render update render_args render_kwargs
                 update_args update_kwargs caller0 s).
  { eapply inv_exec; [by apply inv_init|exact Hrun]. }
  assert (Hsig : signals_ok s).
  { eapply signals_exec; [by apply inv_init| |exact Hrun].
    apply signals_ok_init. }
  assert (Hcount : returned s = true ->
            (signals (task_queue s) + exited (workers s))%nat
            = length (workers s)).
  { unfold returned, signals_ok in *. by destruct (main s). }
  split; [exact Hcount|]. intros Hq.
  assert (Hret : returned s = true).
  { destruct (returned s) eqn:Hret; [done|].
    destruct (progress self tasks render update render_args render_kwargs
                update_args update_kwargs caller0 Hw s Hs Hret)
      as (a & s' & Hstep).
    by rewrite Hq in Hstep. }
  split; [exact Hret|].
  destruct (returned_nothing_left _ _ _ _ _ _ _ _ _ _ Hs Hret)
    as [Hrq Hrest].
  apply app_eq_nil in Hrest as [Hheld Hrest].
  apply app_eq_nil in Hrest as [Hqueued Hunsent].
  specialize (Hcount Hret).
  pose proof (length_queue (task_queue s)) as Hlen.
  rewrite Hqueued in Hlen. simpl in Hlen.
  (* a worker still in its loop could move *)
  assert (Hall : Forall (fun w => w = WExited) (workers s)).
  { destruct (task_queue s) as [|v tq] eqn:Htq.
    - apply exited_all. simpl in Hcount. lia.
    - exfalso.
      assert (Hex : exists i w, workers s !! i = Some w /\ w <> WExited).
      { destruct (decide (exited (workers s) = length (workers s)))
          as [He|Hne]; [simpl in *; lia|].
        clear -Hne. induction (workers s) as [|w ws IH]; [done|].
        destruct w;
          try (exists O; eexists; split; [reflexivity|discriminate]).
        destruct IH as (i & w' & Hi & Hw').
        { unfold exited in *. simpl in *. lia. }
        by exists (Datatypes.S i), w'. }
      destruct Hex as (i & w & Hi & Hne).
      specialize (Hq (AWorker i)). simpl in Hq. rewrite Hi, Htq in Hq.
      simpl in Hq. destruct w; try done; simpl in Hq.
      by destruct (is_None v). }
  split; [exact Hall|].
  split.
  { pose proof (inv_phase _ _ _ _ _ _ _ _ _ _ Hs) as Hphase.
    unfold phase_ok, returned in *. destruct (main s); try done.
    destruct Hphase as (Hp & _). unfold unsent in Hunsent.
    destruct (producer s); [done|by rewrite Hunsent]. }
  split; [|exact Hrq].
  apply length_zero_iff_nil.
  assert (exited (workers s) = length (workers s)); [|lia].
  clear -Hall. induction Hall as [|w ws -> _ IH]; [done|].
  unfold exited in *. simpl. lia.
Qed.

Lemma shutdown_reaches_every_worker_witness :
  (signals (task_queue example_final) + exited (workers example_final))%nat
  = length (workers example_final).
Proof.
  assert (Hw : 1 <= worker_count example_engine) by (simpl; lia).
  assert (Hrun : exec example_engine example_tasks square add_total
                   [] [] [] [] example_schedule (init_state 0)
                 = Some example_final) by (vm_compute; reflexivity).
  pose proof (shutdown_reaches_every_worker example_engine example_tasks
                square add_total [] [] [] [] 0 example_tasks_legal Hw)
    as [H _].
  exact (proj1 (H example_schedule example_final Hrun) eq_refl).
Defined.

(** X8: with a single worker the pool keeps the submission order: under
    every schedule the tasks are rendered in the order of the list, and
    when [run] has returned the results have been handed to [update] in
    that order, so that the caller's state is the one the serial engine
    leaves, for any [update] whatever. *)
Theorem single_worker_in_order {St : Type} (self : engine)
    (tasks : list pyobj) (render : render_fn) (update : update_fn St)
    (render_args update_args : args) (render_kwargs update_kwargs : kwargs)
    (caller0 : St) (sched : list actor) (s : state St) :
  worker_count self = 1 ->
  Forall is_task tasks ->
  exec self tasks render update render_args render_kwargs
    update_args update_kwargs sched (init_state caller0) = Some s ->
  (exists rest, tasks = rendered (trace s) ++ rest) /\
  (returned s = true ->
   rendered (trace s) = tasks /\
   updates (trace s)
   = map (fun task => render task render_args render_kwargs) tasks /\
   caller s
   = fst (SerialEngine.run render update render_args render_kwargs
            update_args update_kwargs tasks caller0)).
Proof.
  intros Hone Htasks Hrun.
  assert (Hs : inv self tasks render update render_args render_kwargs
                 update_args update_kwargs caller0 s).
  { eapply inv_exec; [by apply inv_init|exact Hrun]. }
  assert (Hord : in_order tasks s).
  { eapply in_order_exec; [exact Hone|by apply inv_init| |exact Hrun].
    reflexivity. }
  split; [eexists; exact Hord|]. intros Hret.
  destruct (returned_nothing_left _ _ _ _ _ _ _ _ _ _ Hs Hret)
    as [Hrq Hrest].
  unfold in_order in Hord. rewrite Hrest, app_nil_r in Hord.
  destruct Hs as [_ Hfifo Hrend Hcaller _ _ _].
  rewrite Hrq, app_nil_r in Hfifo.
  assert (Hup : updates (trace s)
                = map (fun task => render task render_args render_kwargs)
                    tasks).
  { by rewrite <- Hfifo, <- Hrend, <- Hord. }
  split; [done|]. split; [exact Hup|].
  by rewrite Hcaller, Hup, SerialEngineSpec.run_caller.
Qed.

Lemma single_worker_in_order_witness :
  caller one_worker_final
  = fst (SerialEngine.run square append [] [] [] [] example_tasks []).
Proof.
  assert (Hrun : exec {| _processes := 1 |} example_tasks square append
                   [] [] [] [] one_worker_schedule (init_state [])
                 = Some one_worker_final) by (vm_compute; reflexivity).
  pose proof (single_worker_in_order {| _processes := 1 |} example_tasks
                square append [] [] [] [] [] one_worker_schedule
                one_worker_final eq_refl example_tasks_legal Hrun)
    as [_ H].
  exact (proj2 (proj2 (H eq_refl))).
Defined.

(** X9: on an empty list of tasks the pool renders nothing, never calls
    [update] and leaves the caller's state untouched, under every
    schedule; it still starts its workers, and it returns. *)
Theorem no_task_nothing_done {St : Type} (self : engine)
    (render : render_fn) (update : update_fn St)
    (render_args update_args : args) (render_kwargs update_kwargs : kwargs)
    (caller0 : St) :
  1 <= worker_count self ->
  (forall sched s,
     exec self [] render update render_args render_kwargs
       update_args update_kwargs sched (init_state caller0) = Some s ->
     trace s = [] /\ caller s = caller0 /\ result_queue s = [] /\
     (returned s = true ->
      length (workers s) = Z.to_nat (worker_count self))) /\
  (exists sched s,
     exec self [] render update render_args render_kwargs
       update_args update_kwargs sched (init_state caller0) = Some s /\
     returned s = true).
Proof.
  intros Hw. split.
  2:{ eapply (completes self [])
        with (n := measure self [] (init_state caller0));
        first [exact Hw | by apply inv_init | lia]. }
  intros sched s Hrun.
  assert (Hs : inv self [] render update render_args render_kwargs
                 update_args update_kwargs caller0 s).
  { eapply inv_exec; [by apply inv_init|exact Hrun]. }
  destruct Hs as [Hperm Hfifo Hrend Hcaller _ Hphase _].
  simpl in Hperm. apply Permutation_nil in Hperm.
  apply app_eq_nil in Hperm as [Hup Hperm].
  apply app_eq_nil in Hperm as [Hrq _].
  rewrite Hup, Hrq in Hfifo. simpl in Hfifo.
  assert (Hr : rendered (trace s) = []).
  { rewrite Hfifo in Hrend. by apply map_eq_nil in Hrend. }
  split; [by apply trace_empty|]. rewrite Hup in Hcaller.
  split; [exact Hcaller|]. split; [exact Hrq|].
  unfold returned, phase_ok in *. destruct (main s); try done.
  by destruct Hphase as (_ & ? & _).
Qed.

Lemma no_task_nothing_done_witness :
  trace no_task_final = [] /\ caller no_task_final = 7.
Proof.
  assert (Hw : 1 <= worker_count {| _processes := 2 |}) by (simpl; lia).
  assert (Hrun : exec {| _processes := 2 |} [] square add_total
                   [] [] [] [] no_task_schedule (init_state 7)
                 = Some no_task_final) by (vm_compute; reflexivity).
  pose proof (no_task_nothing_done {| _processes := 2 |} square add_total
                [] [] [] [] 7 Hw) as [H _].
  destruct (H no_task_schedule no_task_final Hrun) as (H1 & H2 & _).
  by split.
Defined.

End PoolFacts.

(** ** VTKHandler: more on the mode dispatch *)

Module VTKHandlerFacts.

Import VTKHandler.

Lemma lower_char_idempotent (c : ascii) :
  lower_char (lower_char c) = lower_char c.
Proof.
  destruct c as [[] [] [] [] [] [] [] []]; reflexivity.
Qed.

Lemma lower_idempotent (s : string) : lower (lower s) = lower s.
Proof.
  induction s as [|c s IH]; [done|].
  simpl. by rewrite lower_char_idempotent, IH.
Qed.

Section ImportVtk.
Context {vertices triangles mesh scale kwval : Type}.
Variable of_str : string -> kwval.
Variable parse_ascii :
  string -> scale -> result (vertices * triangles * string).
Variable Mesh :
  vertices -> triangles -> bool -> gmap string kwval -> result mesh.

Local Abbreviation import := (my_import_vtk of_str parse_ascii Mesh).

(** X10: modes ['ascii'] and ['auto'] both open the named file, once, and
    differ in one thing: a [ValueError] out of the ASCII loader reaches the
    caller in mode ['ascii'] and becomes the [NotImplementedError] of the
    binary loader in mode ['auto'].  Whenever the loader does not raise
    [ValueError] the two modes give the same outcome. *)
Theorem auto_mode_like_ascii (filename : string) (scaling : scale)
    (mode_ascii mode_auto : string) (kwargs : gmap string kwval) :
  lower mode_ascii = VTK_ASCII ->
  lower mode_auto = VTK_AUTOMATIC ->
  snd (import filename scaling mode_ascii kwargs) = [EvOpen filename] /\
  snd (import filename scaling mode_auto kwargs) = [EvOpen filename] /\
  ((forall msg, parse_ascii filename scaling <> Raise (ValueError msg)) ->
   import filename scaling mode_auto kwargs
   = import filename scaling mode_ascii kwargs) /\
  (forall msg,
     parse_ascii filename scaling = Raise (ValueError msg) ->
     fst (import filename scaling mode_ascii kwargs)
     = Raise (ValueError msg) /\
     fst (import filename scaling mode_auto kwargs)
     = Raise (NotImplementedError binary_msg)).
Proof.
  intros Ha Hu. unfold my_import_vtk, _load_ascii. rewrite Ha, Hu. simpl.
  destruct (parse_ascii filename scaling) as [loaded|e] eqn:Hp; simpl.
  - repeat split; try done.
  - split; [by destruct e|]. split; [by destruct e|]. split.
    + intros Hne. destruct e; try done. by destruct (Hne msg).
    + intros msg [= ->]. done.
Qed.

(** X11: when the loader succeeds, [Mesh] is called on the loaded arrays
    with [smoothing=False]; a ['name'] among the keyword arguments is
    passed as given, without one the name read from the file is passed, or
    ["VTKMesh"] if that name is empty; every other keyword argument is
    passed unchanged. *)
Theorem mesh_gets_name (filename : string) (scaling : scale)
    (mode : string) (kwargs : gmap string kwval)
    (vs : vertices) (ts : triangles) (mesh_name : string) :
  lower mode = VTK_ASCII \/ lower mode = VTK_AUTOMATIC ->
  parse_ascii filename scaling = Ok (vs, ts, mesh_name) ->
  exists kwargs',
    fst (import filename scaling mode kwargs) = Mesh vs ts false kwargs' /\
    (forall k, k <> "name"%string -> kwargs' !! k = kwargs !! k) /\
    kwargs' !! "name"%string
    = Some (match kwargs !! "name"%string with
            | Some given => given
            | None =>
                of_str (if String.eqb mesh_name "" then "VTKMesh"
                        else mesh_name)
            end).
Proof.
  intros Hmode Hp.
  assert (Hout : fst (import filename scaling mode kwargs)
                 = build_mesh of_str Mesh (vs, ts, mesh_name) kwargs).
  { unfold my_import_vtk, _load_ascii.
    destruct Hmode as [Hm|Hm]; rewrite Hm, Hp; reflexivity. }
  rewrite Hout. unfold build_mesh.
  destruct (kwargs !! "name"%string) as [given|] eqn:Hname.
  - exists kwargs. by repeat split.
  - eexists. split; [reflexivity|]. split.
    + intros k Hk. by rewrite lookup_insert_ne.
    + rewrite lookup_insert_eq. by destruct mesh_name.
Qed.

(** X12: the mode is matched without regard to letter case, and whatever
    the mode, the importer opens no file but the named one, at most once:
    it opens it exactly for the modes ['ascii'] and ['auto']. *)
Theorem mode_case_and_file_access (filename : string) (scaling : scale)
    (mode : string) (kwargs : gmap string kwval) :
  import filename scaling (lower mode) kwargs
  = import filename scaling mode kwargs /\
  snd (import filename scaling mode kwargs)
  = if bool_decide (lower mode = VTK_ASCII \/ lower mode = VTK_AUTOMATIC)
    then [EvOpen filename] else [].
Proof.
  split.
  { unfold my_import_vtk. by rewrite lower_idempotent. }
  unfold my_import_vtk, _load_ascii.
  destruct (String.eqb_spec (lower mode) VTK_ASCII) as [Ha|Ha].
  { rewrite bool_decide_eq_true_2 by by left.
    by destruct (parse_ascii filename scaling). }
  destruct (String.eqb_spec (lower mode) VTK_BINARY) as [Hb|Hb].
  { rewrite bool_decide_eq_false_2; [done|]. rewrite Hb. by intros [|]. }
  destruct (String.eqb_spec (lower mode) VTK_AUTOMATIC) as [Hu|Hu].
  { rewrite bool_decide_eq_true_2 by by right.
    destruct (parse_ascii filename scaling) as [|[]]; done. }
  rewrite bool_decide_eq_false_2; [done|]. by intros [|].
Qed.

End ImportVtk.

Lemma auto_mode_like_ascii_witness :
  fst (my_import_vtk (fun s : string => s)
         (fun (_ : string) (_ : unit) =>
            Raise (ValueError "could not convert string to float: 'x'"))
         (fun (_ _ : unit) (_ : bool) (_ : gmap string string) => Ok tt)
         "part.vtk" tt "Auto" ∅)
  = Raise (NotImplementedError binary_msg).
Proof.
  pose proof (auto_mode_like_ascii
            (fun s : string => s)
            (fun (_ : string) (_ : unit) =>
               Raise (ValueError "could not convert string to float: 'x'"))
            (fun (_ _ : unit) (_ : bool) (_ : gmap string string) => Ok tt)
            "part.vtk" tt "ASCII" "Auto" ∅ eq_refl eq_refl)
    as (_ & _ & _ & H).
  exact (proj2 (H _ eq_refl)).
Defined.

Lemma mesh_gets_name_witness :
  exists kwargs' : gmap string string,
    fst (my_import_vtk (fun s : string => s)
           (fun (_ : string) (_ : unit) => Ok (tt, tt, ""%string))
           (fun (_ _ : unit) (_ : bool) (kw : gmap string string) => Ok kw)
           "part.vtk" tt "ascii" ∅)
    = Ok kwargs' /\
    (forall k, k <> "name"%string ->
               kwargs' !! k = (∅ : gmap string string) !! k) /\
    kwargs' !! "name"%string
    = Some (match (∅ : gmap string string) !! "name"%string with
            | Some given => given
            | None => if String.eqb "" "" then "VTKMesh"%string else ""%string
            end).
Proof.
  apply (mesh_gets_name (fun s : string => s)
           (fun (_ : string) (_ : unit) => Ok (tt, tt, ""%string))
           (fun (_ _ : unit) (_ : bool) (kw : gmap string string) => Ok kw)
           "part.vtk" tt "ascii" ∅ tt tt "").
  - left. reflexivity.
  - reflexivity.
Defined.

End VTKHandlerFacts.



(** ** The ASCII reader *)

Module VTKReaderFacts.

Import VTKReader.

Lemma triples_app {A : Type} (convert : string -> result A)
    (items1 items2 : list string) (rows1 rows2 : list (A * A * A)) :
  triples convert items1 = Some rows1 ->
  triples convert items2 = Some rows2 ->
  triples convert (items1 ++ items2) = Some (rows1 ++ rows2).
Proof.
  revert rows1.
  induction items1 as [items1 IH] using (induction_ltof1 _ (@length _)).
  unfold ltof in IH. intros rows1 H1 H2.
  destruct items1 as [|x [|y [|z rest]]]; simpl in H1; try done.
  - by injection H1 as <-.
  - simpl.
    destruct (convert x) as [a|]; [|done].
    destruct (convert y) as [b|]; [|done].
    destruct (convert z) as [c|]; [|done].
    destruct (triples convert rest) as [more|] eqn:Hrest; [|done].
    injection H1 as <-.
    rewrite (IH rest ltac:(simpl; lia) more Hrest H2). done.
Qed.

Lemma triples_length {A : Type} (convert : string -> result A)
    (items : list string) (rows : list (A * A * A)) :
  triples convert items = Some rows -> length items = (3 * length rows)%nat.
Proof.
  revert rows.
  induction items as [items IH] using (induction_ltof1 _ (@length _)).
  unfold ltof in IH. intros rows H.
  destruct items as [|x [|y [|z rest]]]; simpl in H; try done.
  - by injection H as <-.
  - destruct (convert x) as [a|]; [|done].
    destruct (convert y) as [b|]; [|done].
    destruct (convert z) as [c|]; [|done].
    destruct (triples convert rest) as [more|] eqn:Hrest; [|done].
    injection H as <-. simpl.
    rewrite (IH rest ltac:(simpl; lia) more Hrest). lia.
Qed.

Section Reader.
Context {coord index : Type}.
Variable coord_of : string -> result coord.
Variable index_of : string -> result index.
Variable open_file : string -> result file.

(** What the inner loop returns: the rows of the items taken three by
    three, added to the rows so far, and never more rows than the array
    has. *)
Lemma read_coordinates_spec (n : nat) (items : list string) (i i' : nat)
    (rows rows' : list (coord * coord * coord)) :
  read_coordinates coord_of n items i rows = Return (i', rows') ->
  exists new,
    triples coord_of items = Some new /\
    rows' = rows ++ new /\ i' = (i + length new)%nat /\
    (i <= n -> i' <= n)%nat.
Proof.
  revert i rows.
  induction items as [items IH] using (induction_ltof1 _ (@length _)).
  unfold ltof in IH. intros i rows H.
  destruct items as [|x rest]; simpl in H.
  { injection H as <- <-. exists []. rewrite app_nil_r. simpl.
    repeat split; [lia|done]. }
  destruct (coord_of x) as [a|] eqn:Hx; [|done].
  destruct (Nat.leb_spec n i) as [|Hi]; [done|].
  destruct rest as [|y rest]; [done|].
  destruct (coord_of y) as [b|] eqn:Hy; [|done].
  destruct rest as [|z rest]; [done|].
  destruct (coord_of z) as [c|] eqn:Hz; [|done].
  apply IH in H as (new & Hnew & -> & -> & Hle); [|simpl; lia].
  exists ((a, b, c) :: new). simpl. rewrite Hx, Hy, Hz, Hnew.
  rewrite <- app_assoc. simpl. repeat split; lia.
Qed.

(** Lines without items do not bring the outer loop forward. *)
Lemma read_vertex_lines_blank (fuel n : nat) (f : file) (i : nat)
    (rows : list (coord * coord * coord)) :
  (i < n)%nat -> Forall blank f ->
  read_vertex_lines coord_of fuel n f i rows = None.
Proof.
  intros Hi. revert f.
  induction fuel as [|fuel IH]; intros f Hf; simpl;
    destruct (Nat.leb_spec n i); try lia; [done|].
  destruct Hf as [|line f Hline Hf]; simpl.
  - apply IH. constructor.
  - rewrite Hline. simpl. by apply IH.
Qed.

Lemma read_all_grows (n : nat) (body : list string) (i i' : nat)
    (rows rows' : list (coord * coord * coord)) :
  read_all coord_of n body i rows = Return (i', rows') -> (i <= i')%nat.
Proof.
  revert i rows. induction body as [|line body IH]; intros i rows H;
    simpl in H.
  - injection H as <- _. lia.
  - destruct (read_coordinates coord_of n (split line) i rows)
      as [[i1 rows1]|] eqn:Hline; [|done].
    apply read_coordinates_spec in Hline as (new & _ & _ & -> & _).
    apply IH in H. lia.
Qed.

(** A file that ends, or goes on with blank lines only, before the array
    is full keeps the outer loop turning. *)
Lemma read_all_then_blank (fuel n : nat) (body blanks : list string)
    (i i' : nat) (rows rows' : list (coord * coord * coord)) :
  read_all coord_of n body i rows = Return (i', rows') ->
  (i' < n)%nat -> Forall blank blanks ->
  read_vertex_lines coord_of fuel n (body ++ blanks) i rows = None.
Proof.
  intros Hall Hi' Hblank. revert fuel i rows Hall.
  induction body as [|line body IH]; intros fuel i rows Hall.
  - simpl in Hall. injection Hall as <- <-. by apply read_vertex_lines_blank.
  - pose proof (read_all_grows _ _ _ _ _ _ Hall) as Hle. simpl in Hall.
    destruct (read_coordinates coord_of n (split line) i rows)
      as [[i1 rows1]|] eqn:Hline; [|done].
    destruct fuel as [|fuel]; simpl;
      destruct (Nat.leb_spec n i); try lia; [done|].
    rewrite Hline. by apply IH.
Qed.

(** What the outer loop returns. *)
Lemma read_vertex_lines_spec (fuel n : nat) (f f' : file) (i : nat)
    (rows rows' : list (coord * coord * coord)) :
  read_vertex_lines coord_of fuel n f i rows = Some (Return (rows', f')) ->
  (i <= n)%nat ->
  exists body new,
    f = body ++ f' /\ rows' = rows ++ new /\
    length new = (n - i)%nat /\
    triples coord_of (flat_map split body) = Some new.
Proof.
  revert f i rows. induction fuel as [|fuel IH]; intros f i rows H Hi;
    simpl in H; destruct (Nat.leb_spec n i) as [Hn|Hn]; try done;
    try (injection H as <- <-; exists [], []; rewrite app_nil_r;
         repeat split; simpl; lia).
  destruct f as [|line f]; simpl in H.
  { (* the end of the file: the loop turns on the spot *)
    rewrite (read_vertex_lines_blank fuel n [] i rows Hn) in H; [done|].
    constructor. }
  destruct (read_coordinates coord_of n (split line) i rows)
    as [[i1 rows1]|] eqn:Hline; [|by injection H].
  apply read_coordinates_spec in Hline as (new1 & Hnew1 & -> & -> & Hle).
  apply IH in H as (body & new2 & -> & -> & Hlen & Hnew2); [|lia].
  exists (line :: body), (new1 ++ new2). simpl.
  rewrite <- app_assoc, length_app. repeat split; [lia|].
  by apply triples_app.
Qed.

Lemma find_polygons_none (fuel : nat) (f : file) :
  Forall (fun line => match_polygons line = None) f ->
  find_polygons fuel f = None.
Proof.
  revert f. induction fuel as [|fuel IH]; intros f Hf; [done|].
  destruct Hf as [|line f Hline Hf]; simpl.
  - apply IH. constructor.
  - rewrite Hline. by apply IH.
Qed.

Lemma find_polygons_skips (fuel : nat) (skipped : list string)
    (line : string) (rest : file) (groups : string * string) :
  Forall (fun line => match_polygons line = None) skipped ->
  match_polygons line = Some groups ->
  (length skipped < fuel)%nat ->
  find_polygons fuel (skipped ++ line :: rest) = Some (groups, rest).
Proof.
  intros Hskip Hline. revert fuel.
  induction Hskip as [|l skipped Hl _ IH]; intros [|fuel] Hfuel;
    simpl in *; try lia.
  - by rewrite Hline.
  - rewrite Hl. apply IH. lia.
Qed.

Lemma read_triangle_throws (items : list string) (e : error) :
  read_triangle index_of items = Throw e ->
  e = IndexError \/
  exists x e', index_of x = Raise e' /\ e = Builtin e'.
Proof.
  unfold read_triangle.
  destruct items as [|count [|a [|b [|c more]]]];
    try (intros [= <-]; by left).
  - destruct (index_of a) as [?|ea] eqn:Ha; intros [= <-];
      [by left|right; eauto].
  - destruct (index_of a) as [?|ea] eqn:Ha; [|intros [= <-]; right; eauto].
    destruct (index_of b) as [?|eb] eqn:Hb; intros [= <-];
      [by left|right; eauto].
  - destruct (index_of a) as [?|ea] eqn:Ha; [|intros [= <-]; right; eauto].
    destruct (index_of b) as [?|eb] eqn:Hb; [|intros [= <-]; right; eauto].
    destruct (index_of c) as [?|ec] eqn:Hc; [done|].
    intros [= <-]. right. eauto.
Qed.

Lemma read_triangle_lines_throws (n : nat) (f : file)
    (rows : list (index * index * index)) (e : error) :
  read_triangle_lines index_of n f rows = Throw e ->
  e = IndexError \/
  exists x e', index_of x = Raise e' /\ e = Builtin e'.
Proof.
  revert f rows. induction n as [|n IH]; intros f rows H; simpl in H;
    [done|].
  destruct (readline f) as [line f'].
  destruct (read_triangle index_of (split line)) as [row|e1] eqn:Hrow.
  - by eapply IH.
  - injection H as <-. by eapply read_triangle_throws.
Qed.

Lemma read_triangle_lines_spec (n : nat) (f : file)
    (rows rows' : list (index * index * index)) :
  read_triangle_lines index_of n f rows = Return rows' ->
  (n <= length f)%nat /\
  exists new,
    rows' = rows ++ new /\ length new = n /\
    Forall2 (fun line row => read_triangle index_of (split line) = Return row)
      (take n f) new.
Proof.
  revert f rows. induction n as [|n IH]; intros f rows H; simpl in H.
  - injection H as <-. split; [lia|]. exists []. rewrite app_nil_r.
    repeat split. rewrite take_0. constructor.
  - destruct f as [|line f]; simpl in H; [done|].
    destruct (read_triangle index_of (split line)) as [row|] eqn:Hrow;
      [|done].
    apply IH in H as (Hlen & new & -> & Hnew & Hall).
    split; [simpl; lia|]. exists (row :: new).
    rewrite <- app_assoc. simpl. repeat split; [lia|]. by constructor.
Qed.

End Reader.

(** X13: [_load_ascii] returns arrays only from a file whose first four
    lines are, white space at their ends apart, the version line, any
    line, [ASCII] and [DATASET POLYDATA]; the mesh name it returns is the
    second line without the white space at its ends.  A file with another
    first line, or with no line at all, raises [AssertionError] whatever
    follows. *)
Theorem load_needs_header {coord index : Type}
    (coord_of : string -> result coord) (index_of : string -> result index)
    (open_file : string -> result file) (filename : string) :
  (forall fuel vertices triangles mesh_name,
     _load_ascii coord_of index_of open_file fuel filename
     = Some (Return (vertices, triangles, mesh_name)) ->
     exists line1 line2 line3 line4 rest,
       open_file filename = Ok (line1 :: line2 :: line3 :: line4 :: rest) /\
       strip line1 = "# vtk DataFile Version 4.2"%string /\
       strip line2 = mesh_name /\
       strip line3 = "ASCII"%string /\
       strip line4 = "DATASET POLYDATA"%string) /\
  (forall fuel f,
     open_file filename = Ok f ->
     strip (fst (readline f)) <> "# vtk DataFile Version 4.2"%string ->
     _load_ascii coord_of index_of open_file fuel filename
     = Some (Throw (Builtin (AssertionError "")))).
Proof.
  split.
  - intros fuel vertices triangles mesh_name H. unfold _load_ascii in H.
    destruct (open_file filename) as [f|]; [|done].
    destruct f as [|line1 [|line2 [|line3 [|line4 rest]]]]; simpl in H;
      try done;
      repeat match type of H with
      | context [String.eqb ?a ?b] =>
          destruct (String.eqb_spec a b); simpl in H; try done
      end.
    destruct (_ascii_read_vertices coord_of fuel rest)
      as [[[vs f']|]|]; try done.
    destruct (_ascii_read_triangles index_of fuel f') as [[ts|]|]; try done.
    injection H as <- <- <-. by exists line1, line2, line3, line4, rest.
  - intros fuel f Hopen Hline. unfold _load_ascii. rewrite Hopen.
    destruct (readline f) as [line f'] eqn:Hread. simpl in Hline.
    by destruct (String.eqb_spec (strip line) "# vtk DataFile Version 4.2").
Qed.

(** X14: a file that ends before its [POINTS] line has had its number of
    vertices (blank lines at the end do not count) is never rejected: the
    loop of [_ascii_read_vertices] goes on reading the end of the file, and
    [_load_ascii] neither returns nor raises, however long it runs. *)
Theorem cut_file_never_loads {coord index : Type}
    (coord_of : string -> result coord) (index_of : string -> result index)
    (open_file : string -> result file) (filename : string)
    (line1 line2 line3 line4 line5 : string) (body blanks : list string)
    (group1 : string) (n i : nat) (rows : list (coord * coord * coord)) :
  open_file filename
  = Ok (line1 :: line2 :: line3 :: line4 :: line5 :: body ++ blanks) ->
  strip line1 = "# vtk DataFile Version 4.2"%string ->
  strip line3 = "ASCII"%string ->
  strip line4 = "DATASET POLYDATA"%string ->
  match_points (strip line5) = Some group1 ->
  int_of_digits group1 = Ok n ->
  read_all coord_of n body O [] = Return (i, rows) ->
  (i < n)%nat ->
  Forall blank blanks ->
  forall fuel,
    _load_ascii coord_of index_of open_file fuel filename = None.
Proof.
  intros Hopen H1 H3 H4 Hpoints Hn Hbody Hi Hblank fuel.
  unfold _load_ascii. rewrite Hopen. simpl. rewrite H1, H3, H4. simpl.
  unfold _ascii_read_vertices. simpl. rewrite Hpoints, Hn.
  by rewrite (read_all_then_blank coord_of fuel n body blanks O i [] rows).
Qed.

Lemma cut_file_never_loads_witness :
  _load_ascii sample_number sample_number
    (fun _ : string => Ok cut_file) 1000 "cut.vtk" = None.
Proof.
  eapply (cut_file_never_loads sample_number sample_number
            (fun _ : string => Ok cut_file) "cut.vtk")
    with (body := []) (blanks := []) (group1 := "3"%string)
         (n := 3%nat) (i := 0%nat) (rows := []).
  - unfold cut_file, sample_file. simpl. reflexivity.
  - reflexivity.
  - reflexivity.
  - reflexivity.
  - reflexivity.
  - reflexivity.
  - reflexivity.
  - lia.
  - constructor.
Defined.

(** X15: when [_ascii_read_vertices] returns, its array has as many rows
    as the [POINTS] line says, and the rows are the items of the lines it
    has read, taken three by three in the order of the file, however the
    items are spread over the lines; the file is left at the line after
    the last one read. *)
Theorem vertices_three_by_three {coord : Type}
    (coord_of : string -> result coord) (fuel : nat) (f f' : file)
    (rows : list (coord * coord * coord)) :
  _ascii_read_vertices coord_of fuel f = Some (Return (rows, f')) ->
  exists line group1 n body,
    f = line :: body ++ f' /\
    match_points (strip line) = Some group1 /\
    int_of_digits group1 = Ok n /\
    length rows = n /\
    triples coord_of (flat_map split body) = Some rows.
Proof.
  unfold _ascii_read_vertices. intros H.
  destruct f as [|line f]; simpl in H; [done|].
  destruct (match_points (strip line)) as [group1|] eqn:Hpoints; [|done].
  destruct (int_of_digits group1) as [n|] eqn:Hn; [|done].
  apply read_vertex_lines_spec in H as (body & new & -> & -> & Hlen & Hnew);
    [|lia].
  exists line, group1, n, body. simpl. repeat split; try done. lia.
Qed.

Lemma vertices_three_by_three_witness :
  exists line group1 n body,
    drop 4 sample_file = line :: body ++ drop 7 sample_file /\
    match_points (strip line) = Some group1 /\
    int_of_digits group1 = Ok n /\
    length [(0, 0, 0); (1, 0, 0); (0, 1, 0)]%nat = n /\
    triples sample_number (flat_map split body)
    = Some [(0, 0, 0); (1, 0, 0); (0, 1, 0)]%nat.
Proof.
  apply (vertices_three_by_three sample_number 5).
  vm_compute. reflexivity.
Defined.

(** X16: [_ascii_read_triangles] skips every line up to the first one that
    begins with [POLYGONS], whatever these lines hold, and reads the number
    of triangles from the first number on that line; the second number is
    not looked at.  In a file without such a line it reads the end of the
    file for ever and never gets to the [RuntimeError] after its loop: what
    it raises is an [IndexError], the [ValueError] of [int] on a missing
    number, or what the conversion of an item raises. *)
Theorem polygons_line_is_searched {index : Type}
    (index_of : string -> result index) :
  (forall fuel f,
     Forall (fun line => match_polygons line = None) f ->
     _ascii_read_triangles index_of fuel f = None) /\
  (forall fuel skipped line rest group1 group2,
     Forall (fun line => match_polygons line = None) skipped ->
     match_polygons line = Some (group1, group2) ->
     (length skipped < fuel)%nat ->
     _ascii_read_triangles index_of fuel (skipped ++ line :: rest)
     = match int_of_digits group1 with
       | Raise e => Some (Throw (Builtin e))
       | Ok n => Some (read_triangle_lines index_of n rest [])
       end) /\
  (forall fuel f e,
     _ascii_read_triangles index_of fuel f = Some (Throw e) ->
     e = IndexError \/
     (exists msg, e = Builtin (ValueError msg)) \/
     (exists x e', index_of x = Raise e' /\ e = Builtin e')).
Proof.
  split; [|split].
  - intros fuel f Hf. unfold _ascii_read_triangles.
    by rewrite find_polygons_none.
  - intros fuel skipped line rest group1 group2 Hskip Hline Hfuel.
    unfold _ascii_read_triangles.
    by rewrite (find_polygons_skips fuel skipped line rest (group1, group2)).
  - intros fuel f e. unfold _ascii_read_triangles.
    destruct (find_polygons fuel f) as [[[group1 group2] f']|]; [|done].
    destruct (int_of_digits group1) as [n|e1] eqn:Hn.
    + intros [= H]. apply read_triangle_lines_throws in H as [->|H];
        [by left|by right; right].
    + intros [= <-]. right. left. unfold int_of_digits in Hn.
      destruct (NilZero.uint_of_string group1); [done|].
      injection Hn as <-. by eexists.
Qed.

(** X17: when the loop over the triangles returns, it has read one line
    for each triangle, and each row holds the second, third and fourth
    items of its line: the first item, the count of the polygon, is not
    looked at, nor is any item after the fourth.  If the file has fewer
    lines left than triangles, [IndexError] is raised. *)
Theorem triangles_from_items_two_to_four {index : Type}
    (index_of : string -> result index) (n : nat) (f : file)
    (rows : list (index * index * index)) :
  (read_triangle_lines index_of n f [] = Return rows ->
   (n <= length f)%nat /\ length rows = n /\
   Forall2 (fun line row =>
              exists count a b c more,
                split line = count :: a :: b :: c :: more /\
                index_of a = Ok (row.1.1) /\
                index_of b = Ok (row.1.2) /\
                index_of c = Ok (row.2))
     (take n f) rows) /\
  (forall count count' a b c more,
     read_triangle index_of (count :: a :: b :: c :: more)
     = read_triangle index_of [count'; a; b; c]) /\
  ((length f < n)%nat ->
   Forall (fun line => exists row,
             read_triangle index_of (split line) = Return row) f ->
   read_triangle_lines index_of n f [] = Throw IndexError).
Proof.
  split; [|split].
  - intros H.
    apply read_triangle_lines_spec in H as (Hlen & new & -> & Hnew & Hall).
    simpl. repeat split; try done.
    eapply Forall2_impl; [exact Hall|]. intros line row Hrow. simpl in Hrow.
    unfold read_triangle in Hrow.
    destruct (split line) as [|count [|a [|b [|c more]]]]; try done;
      repeat match type of Hrow with
      | match index_of ?x with Ok _ => _ | Raise _ => _ end = _ =>
          destruct (index_of x) eqn:?; try done
      end.
    injection Hrow as <-. by exists count, a, b, c, more.
  - intros count count' a b c more. simpl.
    destruct (index_of a); [|done]. destruct (index_of b); [|done]. done.
  - clear rows. generalize (@nil (index * index * index)).
    revert n. induction f as [|line f IH]; intros n acc Hlen Hall.
    + destruct n; [simpl in Hlen; lia|]. reflexivity.
    + destruct n as [|n]; [simpl in Hlen; lia|]. simpl.
      apply Forall_cons in Hall as [[row Hrow] Hall]. rewrite Hrow.
      apply IH; [simpl in Hlen; lia|done].
Qed.

Lemma triangles_from_items_two_to_four_witness :
  read_triangle_lines sample_number 2 (drop 9 sample_file) []
  = Throw IndexError.
Proof.
  refine (proj2 (proj2 (triangles_from_items_two_to_four sample_number 2
                          (drop 9 sample_file) [])) _ _).
  - simpl. lia.
  - repeat constructor. by eexists.
Defined.

End VTKReaderFacts.


(** ** Writing a mesh and reading it back *)

Module VTKRoundTrip.

Import VTKReader VTKWriter.

Local Open Scope string_scope.
Local Arguments String.append !_ _ / : simpl nomatch.

(** *** Strings *)

Lemma append_assoc (a b c : string) : (a ++ b) ++ c = a ++ b ++ c.
Proof. induction a as [|x a IH]; [done|]. simpl. by rewrite IH. Qed.

Lemma append_nil_r (a : string) : a ++ "" = a.
Proof. induction a as [|x a IH]; [done|]. simpl. by rewrite IH. Qed.

Lemma spaceless_app (a b : string) :
  spaceless (a ++ b) = spaceless a && spaceless b.
Proof.
  induction a as [|x a IH]; [done|]. simpl. rewrite IH.
  by destruct (is_space x).
Qed.

Lemma one_line_app (a b : string) :
  one_line (a ++ b) = one_line a && one_line b.
Proof.
  induction a as [|x a IH]; [done|]. simpl. rewrite IH.
  by destruct (Ascii.eqb x "010").
Qed.

Lemma spaceless_one_line (s : string) : spaceless s = true -> one_line s = true.
Proof.
  induction s as [|x s IH]; [done|]. simpl.
  intros [Hx Hs]%andb_true_iff. rewrite (IH Hs), andb_true_r.
  destruct (Ascii.eqb_spec x "010") as [->|]; [done|done].
Qed.

Lemma word_spaceless (s : string) : word s = true -> spaceless s = true.
Proof. by destruct s. Qed.

(** [split] leaves a word whole. *)
Lemma split_from_spaceless (cur w rest : string) :
  spaceless w = true ->
  split_from cur (w ++ rest) = split_from (cur ++ w) rest.
Proof.
  revert cur. induction w as [|x w IH]; intros cur Hw; simpl.
  - by rewrite append_nil_r.
  - simpl in Hw. apply andb_true_iff in Hw as [Hx Hw].
    destruct (is_space x); [done|]. rewrite IH by done.
    by rewrite append_assoc.
Qed.

Lemma split_word_space (w rest : string) :
  word w = true -> split (w ++ " " ++ rest) = w :: split rest.
Proof.
  intros Hw. unfold split.
  rewrite split_from_spaceless by by apply word_spaceless.
  simpl. by destruct w.
Qed.

Lemma split_word_nl (w : string) : word w = true -> split (w ++ nl) = [w].
Proof.
  intros Hw. unfold split.
  rewrite split_from_spaceless by by apply word_spaceless.
  simpl. by destruct w.
Qed.

(** The lines of a text made line by line. *)
Lemma lines_from_one_line (cur s rest : string) :
  one_line s = true ->
  lines_from cur (s ++ rest) = lines_from (cur ++ s) rest.
Proof.
  revert cur. induction s as [|x s IH]; intros cur Hs; simpl.
  - by rewrite append_nil_r.
  - simpl in Hs. apply andb_true_iff in Hs as [Hx Hs].
    destruct (Ascii.eqb x "010"); [done|]. rewrite IH by done.
    by rewrite append_assoc.
Qed.

Lemma lines_unlines (bodies : list string) (rest : string) :
  Forall (fun body => one_line body = true) bodies ->
  lines (unlines bodies ++ rest)
  = app (map (fun body => body ++ nl) bodies) (lines rest).
Proof.
  induction 1 as [|body bodies Hbody _ IH]; [done|].
  unfold lines in *. simpl. rewrite !append_assoc.
  rewrite lines_from_one_line by done. simpl. by rewrite IH.
Qed.

Lemma unlines_app (bodies1 bodies2 : list string) :
  unlines (bodies1 ++ bodies2)%list = unlines bodies1 ++ unlines bodies2.
Proof.
  induction bodies1 as [|body bodies1 IH]; [done|].
  simpl. by rewrite IH, !append_assoc.
Qed.

(** The nested loops write the lines of [body_lines]. *)
Lemma grouped_unlines {A : Type} (per_line : nat) (show : A -> string)
    (elements : list A) (j : nat) (cur : string) :
  (j = O -> cur = "") ->
  cur ++ grouped per_line show j elements
  = unlines (body_lines per_line show j cur elements).
Proof.
  revert j cur. induction elements as [|x rest IH]; intros j cur Hj; simpl.
  - destruct j; [by rewrite Hj|]. simpl. done.
  - destruct (j <? per_line)%nat.
    + rewrite <- IH by done. by rewrite append_assoc.
    + simpl. rewrite <- (IH 1%nat (show x)) by done. done.
Qed.

(** *** Numbers *)

Lemma all_digits_uint (d : Decimal.uint) :
  all_digits (NilEmpty.string_of_uint d) = true.
Proof. induction d; simpl; by rewrite ?IHd. Qed.

Lemma format_nat_digits (n : nat) :
  all_digits (format_nat n) = true /\ format_nat n <> "".
Proof.
  unfold format_nat, NilZero.string_of_uint.
  destruct (Nat.to_uint n); simpl; rewrite ?all_digits_uint; by split.
Qed.

Lemma int_of_format_nat (n : nat) : int_of_digits (format_nat n) = Ok n.
Proof.
  unfold int_of_digits, format_nat.
  pose proof (DecimalNat.Unsigned.of_to n) as Hn.
  assert (Hcase : Nat.to_uint n = Decimal.Nil \/ Nat.to_uint n <> Decimal.Nil)
    by (destruct (Nat.to_uint n); first [by left | by right]).
  destruct Hcase as [Hd|Hd].
  - rewrite Hd in *. by rewrite <- Hn.
  - by rewrite (NilZero.usu _ Hd), Hn.
Qed.

Lemma all_digits_spaceless (s : string) :
  all_digits s = true -> spaceless s = true.
Proof.
  induction s as [|x s IH]; [done|]. simpl.
  intros [Hx Hs]%andb_true_iff. rewrite (IH Hs), andb_true_r.
  revert Hx. unfold is_digit, is_space.
  generalize (nat_of_ascii x). intros k Hk.
  apply andb_true_iff in Hk as [H1%Nat.leb_le H2%Nat.leb_le].
  apply negb_true_iff, orb_false_iff. split; [apply orb_false_iff; split|].
  - apply orb_false_iff. split; apply andb_false_iff; right;
      apply Nat.leb_gt; lia.
  - apply Nat.eqb_neq. lia.
  - apply Nat.eqb_neq. lia.
Qed.

Lemma format_nat_word (n : nat) : word (format_nat n) = true.
Proof.
  destruct (format_nat_digits n) as [Hd Hne].
  apply all_digits_spaceless in Hd. by destruct (format_nat n).
Qed.

Lemma digits_then_app (d s : string) :
  all_digits d = true ->
  digits_then (d ++ s)
  = (d ++ fst (digits_then s), snd (digits_then s)).
Proof.
  induction d as [|x d IH]; simpl.
  - by destruct (digits_then s).
  - intros [Hx Hd]%andb_true_iff. rewrite Hx, (IH Hd). done.
Qed.

Lemma lstrip_word (w s : string) : word w = true -> lstrip (w ++ s) = w ++ s.
Proof.
  destruct w as [|x w]; [done|]. simpl.
  intros [Hx _]%andb_true_iff. by destruct (is_space x).
Qed.

Lemma rstrip_app (a b : string) :
  rstrip b <> "" -> rstrip (a ++ b) = a ++ rstrip b.
Proof.
  intros Hb. induction a as [|x a IH]; [done|].
  simpl. rewrite IH. destruct (a ++ rstrip b) eqn:Hab; [|done].
  destruct a; [|done]. simpl in Hab. done.
Qed.

(** The [POINTS] line and the [POLYGONS] line, as written, are
    recognised. *)
Lemma points_line_read (n : nat) :
  match_points (strip ("POINTS " ++ format_nat n ++ " float" ++ nl))
  = Some (format_nat n).
Proof.
  destruct (format_nat_digits n) as [Hd Hne].
  assert (Hstrip : strip ("POINTS " ++ format_nat n ++ " float" ++ nl)
                   = "POINTS " ++ format_nat n ++ " float").
  { unfold strip. change (lstrip ("POINTS " ++ format_nat n ++ " float" ++ nl))
      with (("POINTS " ++ format_nat n) ++ " float" ++ nl).
    rewrite rstrip_app by done. by rewrite append_assoc. }
  rewrite Hstrip. unfold match_points.
  change (after_literal "POINTS" ("POINTS " ++ format_nat n ++ " float"))
    with (Some (" " ++ format_nat n ++ " float")).
  simpl. change (lstrip (" " ++ format_nat n ++ " float"))
    with (lstrip (format_nat n ++ " float")).
  rewrite lstrip_word by apply format_nat_word.
  rewrite digits_then_app by done. simpl. by rewrite append_nil_r.
Qed.

Lemma polygons_line_read (n k : nat) :
  match_polygons ("POLYGONS " ++ format_nat n ++ " " ++ format_nat k ++ nl)
  = Some (format_nat n, format_nat k).
Proof.
  destruct (format_nat_digits n) as [Hdn _].
  destruct (format_nat_digits k) as [Hdk _].
  unfold match_polygons.
  change (after_literal "POLYGONS"
            ("POLYGONS " ++ format_nat n ++ " " ++ format_nat k ++ nl))
    with (Some (" " ++ format_nat n ++ " " ++ format_nat k ++ nl)).
  simpl. change (lstrip (" " ++ format_nat n ++ " " ++ format_nat k ++ nl))
    with (lstrip (format_nat n ++ " " ++ format_nat k ++ nl)).
  rewrite lstrip_word by apply format_nat_word.
  rewrite digits_then_app by done. simpl.
  rewrite lstrip_word by apply format_nat_word.
  rewrite digits_then_app by done. simpl. by rewrite !append_nil_r.
Qed.

Lemma concat_map_snoc {A : Type} (show : A -> string) (pre : list A) (x : A) :
  concat_map show (app pre [x]) = concat_map show pre ++ show x.
Proof.
  induction pre as [|p pre IH]; simpl.
  - by rewrite append_nil_r.
  - by rewrite IH, append_assoc.
Qed.

(** *** Reading what was written *)

Section RoundTrip.
Context {coord index value : Type}.
Variable show_coord : coord -> string.
Variable show_index : index -> string.
Variable show_value : value -> string.
Variable coord_of : string -> result coord.
Variable index_of : string -> result index.
(** What [float(x) * scaling] makes of a coordinate as printed. *)
Variable scale : coord -> coord.

Hypothesis show_coord_word : forall x, word (show_coord x) = true.
Hypothesis coord_read : forall x, coord_of (show_coord x) = Ok (scale x).
Hypothesis show_index_word : forall t, word (show_index t) = true.
Hypothesis index_read : forall t, index_of (show_index t) = Ok t.

Local Abbreviation sv := (show_vertex show_coord).
Local Abbreviation items := (vertex_items show_coord).
Local Abbreviation scaled :=
  (fun v : coord * coord * coord => (scale v.1.1, scale v.1.2, scale v.2)).

Lemma show_vertex_one_line (v : coord * coord * coord) :
  one_line (sv v) = true.
Proof.
  unfold show_vertex. rewrite !one_line_app.
  by rewrite !(spaceless_one_line (show_coord _))
    by apply word_spaceless, show_coord_word.
Qed.

Lemma split_vertices (pre : list (coord * coord * coord)) :
  split (concat_map sv pre ++ nl) = flat_map items pre.
Proof.
  induction pre as [|v pre IH]; [done|].
  simpl. unfold show_vertex at 1. rewrite !append_assoc.
  rewrite !split_word_space by apply show_coord_word.
  by rewrite IH.
Qed.

Lemma read_items (n : nat) (pre : list (coord * coord * coord)) (i : nat)
    (rows : list (coord * coord * coord)) :
  (i + length pre <= n)%nat ->
  read_coordinates coord_of n (flat_map items pre) i rows
  = Return ((i + length pre)%nat, app rows (map scaled pre)).
Proof.
  revert i rows. induction pre as [|v pre IH]; intros i rows Hn; simpl.
  - by rewrite Nat.add_0_r, app_nil_r.
  - rewrite !coord_read. simpl in Hn.
    destruct (Nat.leb_spec n i); [lia|].
    rewrite IH by lia. rewrite <- app_assoc. simpl.
    do 2 f_equal. lia.
Qed.

Lemma body_lines_one_line (vs : list (coord * coord * coord)) (j : nat)
    (cur : string) :
  one_line cur = true ->
  Forall (fun body => one_line body = true) (body_lines 3 sv j cur vs).
Proof.
  revert j cur. induction vs as [|v vs IH]; intros j cur Hcur; simpl.
  - destruct j; by repeat constructor.
  - destruct (j <? 3)%nat.
    + apply IH. by rewrite one_line_app, Hcur, show_vertex_one_line.
    + constructor; [done|]. apply IH, show_vertex_one_line.
Qed.

(** The lines of vertices are read back, row by row. *)
Lemma read_body_lines (n : nat) (vs pre : list (coord * coord * coord))
    (j : nat) (cur : string) (fuel i : nat)
    (rows : list (coord * coord * coord)) (rest : file) :
  cur = concat_map sv pre -> length pre = j -> (j <= 3)%nat ->
  (i + j + length vs)%nat = n ->
  (length vs + 1 <= fuel)%nat ->
  read_vertex_lines coord_of fuel n
    (app (map (fun body => body ++ nl) (body_lines 3 sv j cur vs)) rest)
    i rows
  = Some (Return (app rows (map scaled (app pre vs)), rest)).
Proof.
  revert pre j cur fuel i rows.
  induction vs as [|v vs IH]; intros pre j cur fuel i rows Hcur Hj Hj3 Hn Hf.
  - simpl in *. rewrite app_nil_r. destruct j as [|j].
    + destruct pre; [|done]. simpl. rewrite app_nil_r.
      destruct fuel; simpl; by destruct (Nat.leb_spec n i); try lia.
    + destruct fuel as [|fuel]; [lia|]. simpl.
      destruct (Nat.leb_spec n i); [lia|].
      rewrite Hcur, split_vertices, read_items by lia.
      destruct fuel; simpl;
        by destruct (Nat.leb_spec n (i + length pre)); try lia.
  - simpl. destruct (Nat.ltb_spec j 3) as [Hlt|Hge].
    + rewrite (IH (app pre [v]) (Datatypes.S j)); simpl in *;
        rewrite ?length_app; simpl; try lia.
      * by rewrite <- app_assoc.
      * by rewrite Hcur, concat_map_snoc.
    + destruct fuel as [|fuel]; [simpl in Hf; lia|]. simpl in *.
      destruct (Nat.leb_spec n i); [lia|].
      rewrite Hcur, split_vertices, read_items by lia.
      rewrite (IH [v] 1%nat); simpl; try lia.
      * by rewrite map_app, <- !app_assoc.
      * by rewrite append_nil_r.
Qed.

Lemma triangles_unlines (ts : list (index * index * index)) :
  concat_map (show_triangle show_index) ts
  = unlines (map (triangle_body show_index) ts).
Proof.
  induction ts as [|t ts IH]; [done|].
  cbn [concat_map map unlines]. rewrite <- IH.
  unfold show_triangle at 1. unfold triangle_body.
  by rewrite !append_assoc.
Qed.

Lemma triangle_body_one_line (t : index * index * index) :
  one_line (triangle_body show_index t) = true.
Proof.
  unfold triangle_body. rewrite !one_line_app.
  by rewrite !(spaceless_one_line (show_index _))
    by apply word_spaceless, show_index_word.
Qed.

Lemma read_triangle_body (t : index * index * index) :
  read_triangle index_of (split (triangle_body show_index t ++ nl))
  = Return t.
Proof.
  unfold triangle_body. change "3 " with ("3" ++ " "). rewrite !append_assoc.
  rewrite (split_word_space "3") by done.
  rewrite !split_word_space by apply show_index_word.
  rewrite split_word_nl by apply show_index_word.
  simpl. rewrite !index_read. by destruct t as [[a b] c].
Qed.

Lemma read_triangle_bodies (ts : list (index * index * index))
    (rows : list (index * index * index)) (rest : file) :
  read_triangle_lines index_of (length ts)
    (app (map (fun body => body ++ nl) (map (triangle_body show_index) ts))
       rest) rows
  = Return (app rows ts).
Proof.
  revert rows. induction ts as [|t ts IH]; intros rows.
  - simpl. by rewrite app_nil_r.
  - cbn [length map Datatypes.app read_triangle_lines readline].
    rewrite read_triangle_body, IH. by rewrite <- app_assoc.
Qed.

(** The header and the geometry are whole lines, those of
    [geometry_bodies]. *)
Lemma geometry_unlines (m : mesh) :
  header ++ _ascii_write_geometry show_coord show_index m
  = unlines (geometry_bodies show_coord show_index m).
Proof.
  unfold geometry_bodies, _ascii_write_geometry, header.
  rewrite !unlines_app, triangles_unlines.
  rewrite <- (grouped_unlines 3 sv (vertices m) 0 "") by done.
  change (unlines metadata_bodies) with metadata.
  cbn [unlines]. by rewrite !append_assoc, ?append_nil_r.
Qed.

Lemma geometry_bodies_one_line (m : mesh) :
  Forall (fun body => one_line body = true)
    (geometry_bodies show_coord show_index m).
Proof.
  unfold geometry_bodies.
  assert (Hn : forall n, one_line (format_nat n) = true).
  { intros n. apply spaceless_one_line, word_spaceless, format_nat_word. }
  rewrite !Forall_app. repeat split.
  - repeat constructor. by rewrite !one_line_app, Hn.
  - by apply body_lines_one_line.
  - by repeat constructor.
  - repeat constructor. by rewrite !one_line_app, !Hn.
  - apply Forall_map, Forall_forall. intros t _. apply triangle_body_one_line.
Qed.

(** Whatever else it writes, [_write_ascii] writes the header and the
    geometry first. *)
Lemma write_ascii_starts (m : mesh) (triangle_data vertex_data : data value) :
  exists more,
    (_write_ascii show_coord show_index show_value m triangle_data
       vertex_data).1
    = unlines (geometry_bodies show_coord show_index m) ++ more.
Proof.
  rewrite <- geometry_unlines. unfold _write_ascii.
  destruct (truthy vertex_data).
  { exists "". by rewrite append_nil_r. }
  destruct (truthy triangle_data).
  - destruct (_ascii_write_triangle_data show_value m triangle_data)
      as [more outcome]. by exists more.
  - exists "". by rewrite append_nil_r.
Qed.

Lemma metadata_not_polygons :
  Forall (fun line => match_polygons line = None)
    (map (fun body => body ++ nl) metadata_bodies).
Proof. by repeat constructor. Qed.

(** X18. Round trip.  Whatever [_write_ascii] leaves in the file, also
    when it ends with an exception for its [vertex_data] or [triangle_data]
    argument, [_load_ascii] loads from it: the vertices of the mesh as
    printed, read and scaled, its triangles, and [vtk output] for the name
    of the mesh, whatever name it had.  It holds for printers that write
    words and that the readers read back. *)
Theorem written_file_loads (open_file : string -> result file)
    (filename : string) (m : mesh) (triangle_data vertex_data : data value)
    (fuel : nat) :
  open_file filename
  = Ok (lines (_write_ascii show_coord show_index show_value m triangle_data
                 vertex_data).1) ->
  (length (vertices m) + 8 <= fuel)%nat ->
  _load_ascii coord_of index_of open_file fuel filename
  = Some (Return (map scaled (vertices m), triangles m, "vtk output")).
Proof.
  intros Hopen Hfuel.
  destruct (write_ascii_starts m triangle_data vertex_data) as [more Hw].
  rewrite Hw, lines_unlines in Hopen by apply geometry_bodies_one_line.
  unfold _load_ascii. rewrite Hopen. unfold geometry_bodies.
  cbn [map Datatypes.app readline].
  change (strip ("# vtk DataFile Version 4.2" ++ nl))
    with "# vtk DataFile Version 4.2".
  change (strip ("vtk output" ++ nl)) with "vtk output".
  change (strip ("ASCII" ++ nl)) with "ASCII".
  change (strip ("DATASET POLYDATA" ++ nl)) with "DATASET POLYDATA".
  cbn [String.eqb Ascii.eqb Bool.eqb negb].
  unfold _ascii_read_vertices. cbn [readline].
  rewrite !append_assoc, points_line_read, int_of_format_nat.
  rewrite !map_app, <- !app_assoc.
  rewrite (read_body_lines (length (vertices m)) (vertices m) [] 0 "")
    by (done || lia).
  unfold _ascii_read_triangles.
  cbn [map Datatypes.app].
  erewrite VTKReaderFacts.find_polygons_skips;
    [ | apply metadata_not_polygons
      | rewrite !append_assoc; apply polygons_line_read
      | simpl; lia ].
  cbv beta iota. by rewrite int_of_format_nat, read_triangle_bodies.
Qed.

End RoundTrip.

(** [written_file_loads], on a mesh of four vertices and two triangles
    whose coordinates are counts, with a dataset of the wrong length. *)
Lemma written_file_loads_witness :
  (4 + 8 <= 12)%nat /\
  _load_ascii sample_number sample_number
    (fun _ =>
       Ok (lines (_write_ascii format_nat format_nat format_nat sample_mesh
                    (DataDict [("ids", Some [7%nat])]) DataNone).1))
    12 "a.vtk"
  = Some (Return (vertices sample_mesh, triangles sample_mesh, "vtk output")).
Proof.
  split; [lia|].
  refine (written_file_loads format_nat format_nat format_nat
            sample_number sample_number (fun x => x)
            format_nat_word int_of_format_nat format_nat_word
            int_of_format_nat (fun _ => Ok (lines _)) "a.vtk" sample_mesh
            (DataDict [("ids", Some [7%nat])]) DataNone 12 eq_refl _).
  simpl. lia.
Defined.

End VTKRoundTrip.

(* ===================================================================== *)
(** ** The writer of VTK files                                           *)
(* ===================================================================== *)

Module VTKWriterFacts.

Import VTKReader VTKWriter.
Local Open Scope string_scope.

Lemma body_lines_length {A : Type} (per_line : nat) (show : A -> string)
    (elements : list A) (j : nat) (cur : string) :
  (1 <= per_line)%nat -> (j <= per_line)%nat ->
  length (body_lines per_line show j cur elements)
  = ((j + length elements + per_line - 1) / per_line)%nat.
Proof.
  intros Hp. revert j cur.
  induction elements as [|x rest IH]; intros j cur Hj; simpl.
  - destruct j as [|j]; simpl.
    + symmetry. apply Nat.div_small. lia.
    + replace (j + 0 + per_line - 0)%nat with (1 * per_line + j)%nat by lia.
      rewrite Nat.div_add_l by lia. rewrite Nat.div_small by lia. done.
  - destruct (Nat.ltb_spec j per_line) as [Hlt|Hge].
    + rewrite IH by lia. f_equal. lia.
    + simpl. rewrite IH by lia.
      replace (j + Datatypes.S (length rest) + per_line - 1)%nat
        with (1 * per_line + (1 + length rest + per_line - 1))%nat by lia.
      by rewrite Nat.div_add_l by lia.
Qed.

Lemma body_lines_whole {A : Type} (per_line : nat) (show : A -> string)
    (elements : list A) (j : nat) (cur : string) :
  (forall x, one_line (show x) = true) -> one_line cur = true ->
  Forall (fun body => one_line body = true)
    (body_lines per_line show j cur elements).
Proof.
  intros Hshow. revert j cur.
  induction elements as [|x rest IH]; intros j cur Hcur; simpl.
  - destruct j; by repeat constructor.
  - destruct (j <? per_line)%nat.
    + apply IH. by rewrite VTKRoundTrip.one_line_app, Hcur, Hshow.
    + constructor; [done|]. apply IH, Hshow.
Qed.

Section Writer.
Context {coord index value : Type}.
Variable show_coord : coord -> string.
Variable show_index : index -> string.
Variable show_value : value -> string.

(** X19. The nested loops of [_ascii_write_geometry] and of
    [_ascii_write_triangle_data] write whole lines, [per_line] elements to a
    line: for [n] elements, [n / per_line] lines rounded up. *)
Theorem elements_fill_lines {A : Type} (per_line : nat) (show : A -> string)
    (elements : list A) :
  (1 <= per_line)%nat ->
  (forall x, one_line (show x) = true) ->
  exists bodies,
    grouped per_line show 0 elements = unlines bodies
    /\ length bodies = ((length elements + per_line - 1) / per_line)%nat
    /\ Forall (fun body => one_line body = true) bodies.
Proof.
  intros Hp Hshow. exists (body_lines per_line show 0 "" elements).
  split; [|split].
  - by rewrite <- VTKRoundTrip.grouped_unlines.
  - by rewrite body_lines_length by lia.
  - by apply body_lines_whole.
Qed.

(** X20. The keys of [triangle_data] are not written: two dictionaries with
    the same values in the same order give the same text and the same
    outcome. *)
Theorem dataset_names_not_written (num_triangles : nat)
    (items1 items2 : list (string * option (list value))) :
  map snd items1 = map snd items2 ->
  write_datasets show_value num_triangles items1
  = write_datasets show_value num_triangles items2.
Proof.
  revert items2.
  induction items1 as [|[key1 values1] items1 IH];
    intros [|[key2 values2] items2] Hsame; try done.
  simpl in Hsame. injection Hsame as -> Hrest. simpl.
  by rewrite (IH items2 Hrest).
Qed.






End Writer.

(** [elements_fill_lines], on the four vertices of the example: two
    lines. *)
Lemma elements_fill_lines_witness :
  exists bodies,
    grouped 3 (show_vertex format_nat) 0 (vertices sample_mesh)
    = unlines bodies
    /\ length bodies = ((4 + 3 - 1) / 3)%nat
    /\ Forall (fun body => one_line body = true) bodies.
Proof.
  apply (elements_fill_lines 3 (show_vertex format_nat)
           (vertices sample_mesh)); [lia|].
  intros v. apply VTKRoundTrip.show_vertex_one_line, VTKRoundTrip.format_nat_word.
Defined.

(** [dataset_names_not_written], on two names for one dataset. *)
Lemma dataset_names_not_written_witness :
  write_datasets format_nat 2 [("ids", Some [7; 8]%nat)]
  = write_datasets format_nat 2 [("temperature", Some [7; 8]%nat)].
Proof. by apply (dataset_names_not_written format_nat 2). Defined.


End VTKWriterFacts.
